(** * GPCData: the dataset container of AutoGPC (gpcdata.py)

    A shallow embedding of the class [GPCData]: the arrays it owns, the
    lazily cached statistics ([inputRange], [minSeparation]), the bounds
    derived from them ([getLengthscaleBounds]) and the memoised k-fold
    partition ([kFoldSplits]).

    Arrays are those of numpy's fixed-width integer dtypes: an entry is an
    integer, and arithmetic on entries wraps around at the width of the
    array's dtype, as numpy's does.  The float64 arrays the code builds
    from them ([minseps], the stacked bounds) hold integers converted to
    float64, which are integer-valued; they are modelled by that integer
    value, with the rounding of the conversion written out.  Arrays of
    floating-point inputs are outside this model.  A method of the class
    is a function from the instance to an outcome and the instance after
    the call. *)

From Stdlib Require Import String DecimalString.
From Stdlib Require Import ZArith List Bool Lia.
From Stdlib Require Import Permutation Sorting.Sorted.
Import ListNotations.

Local Open Scope Z_scope.

(** ** Python outcomes *)

Module Py.

(** The exceptions the code can raise: a failed [assert] (with its
    message), numpy's and scikit-learn's [ValueError], numpy's
    [IndexError]. *)
Inductive exn : Type :=
| AssertionError (msg : string)
| ValueError
| IndexError.

Inductive result (A : Type) : Type :=
| Ok (a : A)
| Raise (e : exn).

Arguments Ok {A} a.
Arguments Raise {A} e.

Definition bind {A B : Type} (r : result A) (f : A -> result B) : result B :=
  match r with
  | Ok a => f a
  | Raise e => Raise e
  end.

Fixpoint mapM {A B : Type} (f : A -> result B) (l : list A) : result (list B) :=
  match l with
  | [] => Ok []
  | x :: t => bind (f x) (fun y => bind (mapM f t) (fun ys => Ok (y :: ys)))
  end.

(** Values that may be passed as a label argument: [None], a scalar, or
    a list or tuple of scalars. *)
Inductive pyatom : Type :=
| AStr (s : string)
| AInt (z : Z)
| ANone.

Inductive pyval : Type :=
| PyNone
| PyAtom (a : pyatom)
| PyList (l : list pyatom)
| PyTuple (l : list pyatom).

(** [isinstance(v, (list, tuple))] together with the elements. *)
Definition as_list_or_tuple (v : pyval) : option (list pyatom) :=
  match v with
  | PyList l | PyTuple l => Some l
  | _ => None
  end.

(** [str.format] of a non-negative integer: its decimal digits. *)
Definition format_nat (n : nat) : string :=
  NilEmpty.string_of_uint (Nat.to_uint n).

End Py.

Import Py.

(** ** The numpy operations the class uses *)

Module Np.

(** The integer dtypes: [int8] ... [int64] and [uint8] ... [uint64]. *)
Inductive width : Type := W8 | W16 | W32 | W64.

Inductive DType : Type :=
| Int (w : width)
| UInt (w : width).

Definition int64 : DType := Int W64.
Definition uint8 : DType := UInt W8.

Definition bits (w : width) : Z :=
  match w with W8 => 8 | W16 => 16 | W32 => 32 | W64 => 64 end.

Definition min_value (dt : DType) : Z :=
  match dt with
  | Int w => - 2 ^ (bits w - 1)
  | UInt _ => 0
  end.

Definition max_value (dt : DType) : Z :=
  match dt with
  | Int w => 2 ^ (bits w - 1) - 1
  | UInt w => 2 ^ bits w - 1
  end.

Definition in_range (dt : DType) (z : Z) : Prop :=
  min_value dt <= z <= max_value dt.

(** The value an arithmetic result takes in an array of dtype [dt]: the
    result modulo 2^bits, read as signed or unsigned. *)
Definition wrap (dt : DType) (z : Z) : Z :=
  match dt with
  | Int w => (z + 2 ^ (bits w - 1)) mod 2 ^ bits w - 2 ^ (bits w - 1)
  | UInt w => z mod 2 ^ bits w
  end.

(** The float64 an integer is converted to (on assignment into a float64
    array, or when stacked with one): the integer itself up to 2^53 in
    magnitude, beyond that the nearest multiple of the spacing of float64
    at that magnitude, ties going to the even multiple.  Every integer
    of an integer dtype is below the float64 range limit. *)
Definition float64_of_int (z : Z) : Z :=
  let a := Z.abs z in
  if a <=? 2 ^ 53 then z
  else
    let e := Z.log2 a - 52 in
    let q := a / 2 ^ e in
    let r := a mod 2 ^ e in
    let half := 2 ^ (e - 1) in
    let q' := if (half <? r) || ((r =? half) && Z.odd q) then q + 1 else q in
    Z.sgn z * (q' * 2 ^ e).

(** A two-dimensional array: its dtype, its shape and its rows. *)
Record ndarray : Type := mk_ndarray {
  dtype : DType;
  shape0 : nat;
  shape1 : nat;
  rows : list (list Z)
}.

(** Every entry is a value of the array's dtype. *)
Definition entries_in_range (a : ndarray) : Prop :=
  Forall (Forall (in_range (dtype a))) (rows a).

Definition wf (a : ndarray) : Prop :=
  length (rows a) = shape0 a /\
  Forall (fun r => length r = shape1 a) (rows a).

(** [a[:, i]] *)
Definition column (a : ndarray) (i : nat) : list Z :=
  map (fun r => nth i r 0) (rows a).

(** [a[ind]] for an array of row indices. *)
Definition take_rows (a : ndarray) (ind : list nat) : ndarray :=
  {| dtype := dtype a;
     shape0 := length ind;
     shape1 := shape1 a;
     rows := map (fun i => nth i (rows a) []) ind |}.

Fixpoint map2 (op : Z -> Z -> Z) (u v : list Z) : list Z :=
  match u, v with
  | x :: u', y :: v' => op x y :: map2 op u' v'
  | _, _ => []
  end.

(** [a.max(axis=0, keepdims=True)] and [a.min(axis=0, keepdims=True)]:
    the rows are folded with the elementwise operation; reducing over
    zero rows raises [ValueError].  The result is the single row of the
    1 x D array. *)
Definition reduce_axis0 (op : Z -> Z -> Z) (a : ndarray) : result (list Z) :=
  match rows a with
  | [] => Raise ValueError
  | r :: rs => Ok (fold_left (map2 op) rs r)
  end.

(** [np.unique]: the sorted distinct elements. *)
Fixpoint insert_unique (x : Z) (l : list Z) : list Z :=
  match l with
  | [] => [x]
  | y :: t =>
      if x <? y then x :: l
      else if x =? y then l
      else y :: insert_unique x t
  end.

Definition unique (l : list Z) : list Z := fold_right insert_unique [] l.

(** [np.diff] of a one-dimensional array of dtype [dt]: differences of
    adjacent elements, taken in that dtype. *)
Fixpoint diff (dt : DType) (l : list Z) : list Z :=
  match l with
  | a :: (b :: _) as t => wrap dt (b - a) :: diff dt t
  | _ => []
  end.

(** [v.min()] of a one-dimensional array; [ValueError] on an empty one. *)
Definition amin (l : list Z) : result Z :=
  match l with
  | [] => Raise ValueError
  | x :: t => Ok (fold_left Z.min t x)
  end.

(** An index into an axis of length [n]: negative indices count from the
    end, anything outside [-n, n) raises [IndexError]. *)
Definition norm_index (n : nat) (i : Z) : result nat :=
  if (0 <=? i) && (i <? Z.of_nat n) then Ok (Z.to_nat i)
  else if (- Z.of_nat n <=? i) && (i <? 0) then Ok (Z.to_nat (i + Z.of_nat n))
  else Raise IndexError.

(** [c[0, dims]] where [c] is 1 x D with row [v] and [dims] a sequence of
    indices. *)
Definition take (v : list Z) (dims : list Z) : result (list Z) :=
  mapM (fun i => bind (norm_index (length v) i) (fun n => Ok (nth n v 0))) dims.

(** [np.vstack((lower, upper))] of a one-dimensional float64 array and a
    one-dimensional integer array: a float64 array of two rows, the
    integers converted. *)
Definition vstack2 (lower upper : list Z) : list (list Z) :=
  [lower; map float64_of_int upper].

End Np.

Import Np.

(** ** The fold generator of scikit-learn *)

Module Sklearn.

(** Consecutive slices of [idxs] of the given sizes. *)
Fixpoint blocks (idxs : list nat) (sizes : list nat) : list (list nat) :=
  match sizes with
  | [] => []
  | s :: ss => firstn s idxs :: blocks (skipn s idxs) ss
  end.

Definition mem (i : nat) (l : list nat) : bool := existsb (Nat.eqb i) l.

(** [n // k] for every fold, one more for the first [n % k] folds. *)
Definition fold_sizes (n k : nat) : list nat :=
  map (fun j => (n / k + (if j <? n mod k then 1 else 0))%nat) (seq 0 k).

(** Modelled from the spec: [sklearn.cross_validation.KFold(n, n_folds,
    shuffle=True)] is a library class outside the sources; the spec
    describes it as "partition N indices into k disjoint near-equal
    blocks" with a "shuffle before blocking".  [idxs] is the outcome of
    shuffling [0 .. n-1] with the global random state; it is cut into
    consecutive blocks of [fold_sizes]; for each block the fold is the
    pair (train indices, test indices), both in increasing order, the
    test indices being those of the block and the train indices all
    others.  A fold count of at most 1 or above [n] raises
    [ValueError]. *)
Definition KFold (n : nat) (n_folds : Z) (idxs : list nat)
  : result (list (list nat * list nat)) :=
  if n_folds <=? 1 then Raise ValueError
  else if n_folds >? Z.of_nat n then Raise ValueError
  else
    Ok (map (fun blk =>
               (filter (fun i => negb (mem i blk)) (seq 0 n),
                filter (fun i => mem i blk) (seq 0 n)))
            (blocks idxs (fold_sizes n (Z.to_nat n_folds)))).

End Sklearn.

Import Sklearn.

(** ** The class GPCData *)

(** The tuple [(X, Y, XT, YT)] of lists of arrays, one array per fold. *)
Definition Splits : Type :=
  (list ndarray * list ndarray * list ndarray * list ndarray)%type.

(** The attributes of an instance.  [None] in [xranges], [minseps],
    [splits] or [nFolds] stands for an attribute that is not set (or is
    [None]). *)
Record GPCData : Type := mk_GPCData {
  X : ndarray;
  Y : ndarray;
  XLabel : list pyatom;
  YLabel : pyval;
  xranges : option (list Z);
  minseps : option (list Z);
  splits : option Splits;
  nFolds : option Z
}.

Definition set_xranges (v : list Z) (self : GPCData) : GPCData :=
  mk_GPCData (X self) (Y self) (XLabel self) (YLabel self)
             (Some v) (minseps self) (splits self) (nFolds self).

Definition set_minseps (v : list Z) (self : GPCData) : GPCData :=
  mk_GPCData (X self) (Y self) (XLabel self) (YLabel self)
             (xranges self) (Some v) (splits self) (nFolds self).

Definition set_splits (s : Splits) (k : Z) (self : GPCData) : GPCData :=
  mk_GPCData (X self) (Y self) (XLabel self) (YLabel self)
             (xranges self) (minseps self) (Some s) (Some k).

(** A method: the outcome of the call and the instance after it. *)
Definition M (A : Type) : Type := GPCData -> result A * GPCData.

Definition ret {A : Type} (a : A) : M A := fun self => (Ok a, self).

Definition bindM {A B : Type} (m : M A) (f : A -> M B) : M B :=
  fun self =>
    match m self with
    | (Ok a, self') => f a self'
    | (Raise e, self') => (Raise e, self')
    end.

Notation "x <- m ;; k" := (bindM m (fun x => k))
  (at level 61, m at next level, right associativity).

(** ['$x_{{{0}}}$'.format(d + 1)] *)
Definition default_XLabel (d : nat) : pyatom :=
  AStr ("$x_{" ++ format_nat (d + 1) ++ "}$").

Definition default_YLabel : pyval := PyList [AStr "negative"; AStr "positive"].

(** [GPCData(X, Y, XLabel, YLabel)].  That [X] and [Y] are two-dimensional
    numpy arrays is in their type. *)
Definition __init__ (X Y : ndarray) (XLabel YLabel : pyval) : result GPCData :=
  if negb (shape1 Y =? 1)%nat then Raise (AssertionError "Y must be a vector")
  else if negb (shape0 Y =? shape0 X)%nat
  then Raise (AssertionError "X and Y must contain the same number of entries")
  else
    let xl :=
      match as_list_or_tuple XLabel with
      | Some l =>
          if (length l =? shape1 X)%nat then l
          else map default_XLabel (seq 0 (shape1 X))
      | None => map default_XLabel (seq 0 (shape1 X))
      end in
    let yl :=
      match as_list_or_tuple YLabel with
      | Some l => if (length l =? 2)%nat then YLabel else default_YLabel
      | None => default_YLabel
      end in
    Ok (mk_GPCData X Y xl yl None None None None).

Definition getNum (self : GPCData) : nat := shape0 (X self).

Definition getDim (self : GPCData) : nat := shape1 (X self).

(** [range(self.getDim())] when [dims] is [None]. *)
Definition dims_or_all (dims : option (list Z)) (self : GPCData) : list Z :=
  match dims with
  | None => map Z.of_nat (seq 0 (getDim self))
  | Some d => d
  end.

(** [X.max(axis=0, keepdims=True) - X.min(axis=0, keepdims=True)] *)
Definition compute_xranges (X : ndarray) : result (list Z) :=
  bind (reduce_axis0 Z.max X) (fun mx =>
  bind (reduce_axis0 Z.min X) (fun mn =>
  Ok (map2 (fun a b => wrap (dtype X) (a - b)) mx mn))).

Definition inputRange (dims : option (list Z)) : M (list Z) := fun self =>
  let dims := dims_or_all dims self in
  match xranges self with
  | None =>
      match compute_xranges (X self) with
      | Raise e => (Raise e, self)
      | Ok v => (take v dims, set_xranges v self)
      end
  | Some v => (take v dims, self)
  end.

(** [np.diff(np.unique(col)).min()] of a column of dtype [dt], as stored
    into an entry of a float64 array. *)
Definition minsep_entry (dt : DType) (col : list Z) : result Z :=
  bind (amin (diff dt (unique col))) (fun m => Ok (float64_of_int m)).

(** The loop filling the float64 array [minseps[0,i]] with
    [np.diff(np.unique(X[:,i])).min()] for [i] in [range(ndim)]. *)
Definition compute_minseps (X : ndarray) : result (list Z) :=
  mapM (fun i => minsep_entry (dtype X) (column X i)) (seq 0 (shape1 X)).

Definition minSeparation (dims : option (list Z)) : M (list Z) := fun self =>
  let dims := dims_or_all dims self in
  match minseps self with
  | None =>
      match compute_minseps (X self) with
      | Raise e => (Raise e, self)
      | Ok v => (take v dims, set_minseps v self)
      end
  | Some v => (take v dims, self)
  end.

Definition getLengthscaleBounds (dims : option (list Z)) : M (list (list Z)) :=
  fun self =>
    let dims := dims_or_all dims self in
    (lower <- minSeparation (Some dims) ;;
     r <- inputRange (Some dims) ;;
     ret (vstack2 lower (map (fun x => wrap (dtype (X self)) (x * 2)) r)))
      self.

Definition getPeriodBounds (dims : option (list Z)) : M (list (list Z)) :=
  getLengthscaleBounds dims.

(** The branch of [kFoldSplits] that builds the partition.  [idxs] is the
    shuffled index sequence drawn by [KFold]. *)
Definition compute_splits (idxs : list nat) (k : Z) (self : GPCData)
  : result Splits :=
  if k =? 1 then Ok ([X self], [Y self], [X self], [Y self])
  else
    bind (KFold (getNum self) k idxs) (fun kf =>
    Ok (map (fun f => take_rows (X self) (fst f)) kf,
        map (fun f => take_rows (Y self) (fst f)) kf,
        map (fun f => take_rows (X self) (snd f)) kf,
        map (fun f => take_rows (Y self) (snd f)) kf)).

(** [kFoldSplits(k)]; [idxs] is the shuffle the random state would produce
    if this call reaches [KFold]. *)
Definition kFoldSplits (idxs : list nat) (k : Z) : M Splits := fun self =>
  if negb ((k >? 0) && (k <=? Z.of_nat (getNum self)))
  then (Raise (AssertionError "Invalid number of folds"), self)
  else
    let recompute :=
      match compute_splits idxs k self with
      | Raise e => (Raise e, self)
      | Ok r => (Ok r, set_splits r k self)
      end in
    match splits self, nFolds self with
    | Some s, Some nf => if nf =? k then (Ok s, self) else recompute
    | _, _ => recompute
    end.

(** ** Invariants and specification-level notions *)

(** The shapes the constructor accepts, with rows of the declared length. *)
Definition valid_dataset (self : GPCData) : Prop :=
  wf (X self) /\ wf (Y self) /\
  shape1 (Y self) = 1%nat /\ shape0 (Y self) = shape0 (X self).

(** A cache that is set holds what the code computes for it. *)
Definition caches_ok (self : GPCData) : Prop :=
  (forall v, xranges self = Some v -> compute_xranges (X self) = Ok v) /\
  (forall v, minseps self = Some v -> compute_minseps (X self) = Ok v) /\
  (forall s k, splits self = Some s -> nFolds self = Some k ->
     exists idxs, Permutation idxs (seq 0 (getNum self)) /\
                  compute_splits idxs k self = Ok s).

Definition consistent (self : GPCData) : Prop :=
  valid_dataset self /\ caches_ok self.


(** The number of distinct values of a column. *)
Definition distinct_count (col : list Z) : nat :=
  length (nodup Z.eq_dec col).

(** Dimension [d] has fewer than two distinct values. *)
Definition degenerate (X : ndarray) (d : nat) : Prop :=
  (d < shape1 X)%nat /\ (distinct_count (column X d) < 2)%nat.

(** [s] lists the distinct values of [col] in increasing order. *)
Definition sorted_distinct (s col : list Z) : Prop :=
  StronglySorted Z.lt s /\ forall x, In x s <-> In x col.

(** [m] is the least element of [l]. *)
Definition is_min (m : Z) (l : list Z) : Prop :=
  In m l /\ Forall (fun x => m <= x) l.

(** [l.max()] of a one-dimensional array. *)
Definition amax (l : list Z) : result Z :=
  match l with
  | [] => Raise ValueError
  | x :: t => Ok (fold_left Z.max t x)
  end.

(** [m] is the greatest element of [l]. *)
Definition is_max (m : Z) (l : list Z) : Prop :=
  In m l /\ Forall (fun x => x <= m) l.

(** The range of one column computed on its own,
    [max(inputs[:,d]) - min(inputs[:,d])], the subtraction being that of
    the array's dtype. *)
Definition direct_range (X : ndarray) (d : nat) : result Z :=
  bind (amax (column X d)) (fun mx =>
  bind (amin (column X d)) (fun mn => Ok (wrap (dtype X) (mx - mn)))).





(** [b] holds the rows of [a] at the indices [ind], in that order. *)
Definition rows_at (a : ndarray) (ind : list nat) (b : ndarray) : Prop :=
  dtype b = dtype a /\ shape0 b = length ind /\ shape1 b = shape1 a /\
  length (rows b) = length ind /\
  forall j, (j < length ind)%nat ->
            nth j (rows b) [] = nth (nth j ind 0%nat) (rows a) [].

(** The four lists built from index folds (train indices, test indices). *)
Definition splits_of (self : GPCData) (folds : list (list nat * list nat))
  : Splits :=
  (map (fun f => take_rows (X self) (fst f)) folds,
   map (fun f => take_rows (Y self) (fst f)) folds,
   map (fun f => take_rows (X self) (snd f)) folds,
   map (fun f => take_rows (Y self) (snd f)) folds).

(** [folds] is a k-fold partition of the row indices [0 .. n-1]: the test
    blocks cover every index exactly once, no two of them share an index,
    and each training block holds the indices outside its test block. *)
Definition kfold_partition (n : nat) (k : Z) (folds : list (list nat * list nat))
  : Prop :=
  Z.of_nat (length folds) = k /\
  Permutation (concat (map snd folds)) (seq 0 n) /\
  (forall i j a, (i < j < length folds)%nat ->
     In a (snd (nth i folds ([], []))) ->
     ~ In a (snd (nth j folds ([], [])))) /\
  Forall (fun f => fst f = filter (fun a => negb (mem a (snd f))) (seq 0 n))
         folds.

(** A valid result for [k] folds: the whole dataset twice for [k = 1], the
    arrays of a k-fold partition otherwise. *)
Definition valid_splits (self : GPCData) (k : Z) (s : Splits) : Prop :=
  if k =? 1 then s = ([X self], [Y self], [X self], [Y self])
  else exists folds,
      kfold_partition (getNum self) k folds /\ s = splits_of self folds.

(** ** A concrete dataset: six points on a line *)

Module Example.

Definition X6 : ndarray := mk_ndarray int64 6 1 [[1]; [2]; [3]; [4]; [5]; [6]].
Definition Y6 : ndarray := mk_ndarray int64 6 1 [[0]; [1]; [0]; [1]; [0]; [1]].

Definition data6 : GPCData :=
  mk_GPCData X6 Y6 [AStr "$x_{1}$"] default_YLabel None None None None.

(** The same points in another order, one of them twice. *)
Definition X7 : ndarray :=
  mk_ndarray int64 7 1 [[4]; [2]; [6]; [1]; [5]; [3]; [2]].
Definition Y7 : ndarray :=
  mk_ndarray int64 7 1 [[1]; [1]; [1]; [0]; [0]; [0]; [1]].

Definition data7 : GPCData :=
  mk_GPCData X7 Y7 [AStr "$x_{1}$"] default_YLabel None None None None.

(** An outcome of shuffling the six row indices. *)
Definition shuffled6 : list nat := [5; 4; 3; 2; 1; 0]%nat.

(** The three folds [kFoldSplits] builds from [shuffled6], and the
    instance holding them in its cache. *)
Definition splits6_3 : Splits :=
  Eval cbv in
    match compute_splits shuffled6 3 data6 with
    | Ok s => s
    | Raise _ => ([], [], [], [])
    end.

Definition data6_3 : GPCData := set_splits splits6_3 3 data6.

(** Two points whose second coordinate is the same. *)
Definition Xflat : ndarray := mk_ndarray int64 2 2 [[1; 5]; [2; 5]].
Definition Yflat : ndarray := mk_ndarray int64 2 1 [[0]; [1]].

Definition dataflat : GPCData :=
  mk_GPCData Xflat Yflat [AStr "age"; AStr "height"] default_YLabel
             None None None None.


Definition Y2 : ndarray := mk_ndarray int64 2 1 [[0]; [1]].






(** A gap of 2^53 + 1, which float64 cannot hold. *)
Definition Xodd53 : ndarray := mk_ndarray int64 2 1 [[0]; [2 ^ 53 + 1]].

Definition dataodd53 : GPCData :=
  mk_GPCData Xodd53 Y2 [AStr "$x_{1}$"] default_YLabel None None None None.

End Example.

(** ** Selecting the points of a class *)

(** [a[mask]] for a boolean array with one entry per row: the rows whose
    entry is true, in their order; a mask of another length raises
    [IndexError]. *)
Definition take_mask (a : ndarray) (mask : list bool) : result ndarray :=
  if negb (length mask =? shape0 a)%nat then Raise IndexError
  else
    let sel := map snd (filter fst (combine mask (rows a))) in
    Ok {| dtype := dtype a; shape0 := length sel; shape1 := shape1 a;
          rows := sel |}.

(** [a[:, 0]]; an array without columns raises [IndexError]. *)
Definition column0 (a : ndarray) : result (list Z) :=
  if (0 <? shape1 a)%nat then Ok (column a 0) else Raise IndexError.

(** [getClass(y)]: [self.X[self.Y[:,0] == y]]. *)
Definition getClass (y : Z) : M ndarray := fun self =>
  (bind (column0 (Y self)) (fun c =>
   take_mask (X self) (map (fun v => v =? y) c)),
   self).

(** ** Sequences of method calls *)

(** A call of one of the methods with its arguments; for [kFoldSplits] also
    the shuffle the random state would produce. *)
Inductive call : Type :=
| CallInputRange (dims : option (list Z))
| CallMinSeparation (dims : option (list Z))
| CallLengthscaleBounds (dims : option (list Z))
| CallPeriodBounds (dims : option (list Z))
| CallKFoldSplits (idxs : list nat) (k : Z)
| CallGetClass (y : Z).

(** The instance after a call, whether it returned or raised. *)
Definition after (c : call) (self : GPCData) : GPCData :=
  match c with
  | CallInputRange dims => snd (inputRange dims self)
  | CallMinSeparation dims => snd (minSeparation dims self)
  | CallLengthscaleBounds dims => snd (getLengthscaleBounds dims self)
  | CallPeriodBounds dims => snd (getPeriodBounds dims self)
  | CallKFoldSplits idxs k => snd (kFoldSplits idxs k self)
  | CallGetClass y => snd (getClass y self)
  end.

Definition run (cs : list call) (self : GPCData) : GPCData :=
  fold_left (fun s c => after c s) cs self.

(** The shuffles handed to [kFoldSplits] are shuffles of the [n] row
    indices. *)
Definition shuffle_ok (n : nat) (c : call) : Prop :=
  match c with
  | CallKFoldSplits idxs _ => Permutation idxs (seq 0 n)
  | _ => True
  end.

(** The points of a dataset with their class labels, row by row. *)
Definition labelled (x y : ndarray) : list (list Z * list Z) :=
  combine (rows x) (rows y).

(** ** Facts about the outcome combinators *)

Section MapM.

Context {A B : Type}.
Variable f : A -> result B.

Lemma mapM_Ok_map (g : A -> B) (l : list A) :
  (forall x, In x l -> f x = Ok (g x)) -> mapM f l = Ok (map g l).
Proof.
  induction l as [|x t IH]; intros H; simpl; [reflexivity|].
  rewrite (H x (or_introl eq_refl)); simpl.
  rewrite IH by (intros y Hy; apply H; now right).
  reflexivity.
Qed.

Lemma mapM_Ok_inv (l : list A) (v : list B) :
  mapM f l = Ok v -> Forall2 (fun x y => f x = Ok y) l v.
Proof.
  revert v; induction l as [|x t IH]; intros v H; simpl in H.
  - injection H as <-. constructor.
  - destruct (f x) as [y|e] eqn:E; simpl in H; [|discriminate].
    destruct (mapM f t) as [ys|e] eqn:E'; simpl in H; [|discriminate].
    injection H as <-. constructor; auto.
Qed.

Lemma mapM_Raise_inv (l : list A) (e : exn) :
  mapM f l = Raise e -> exists x, In x l /\ f x = Raise e.
Proof.
  induction l as [|x t IH]; intros H; simpl in H; [discriminate|].
  destruct (f x) as [y|e'] eqn:E; simpl in H.
  - destruct (mapM f t) as [ys|e'] eqn:E'; simpl in H; [discriminate|].
    injection H as <-. destruct (IH eq_refl) as [z [Hz Hf]].
    exists z; split; [now right | assumption].
  - injection H as <-. exists x; split; [now left | assumption].
Qed.

Lemma mapM_Raise_intro (l : list A) (x : A) (e : exn) :
  In x l -> f x = Raise e -> exists e', mapM f l = Raise e'.
Proof.
  induction l as [|y t IH]; intros Hin Hf; [contradiction|].
  simpl. destruct (f y) as [b|e'] eqn:E; simpl; [|eauto].
  destruct Hin as [->|Hin]; [congruence|].
  destruct (IH Hin Hf) as [e' ->]. simpl; eauto.
Qed.

End MapM.

Lemma mapM_ext_in {A B : Type} (f g : A -> result B) (l : list A) :
  (forall x, In x l -> f x = g x) -> mapM f l = mapM g l.
Proof.
  induction l as [|x t IH]; intros H; simpl; [reflexivity|].
  rewrite (H x (or_introl eq_refl)), IH; [reflexivity|].
  intros y Hy; apply H; now right.
Qed.

Lemma mapM_map {A B C : Type} (h : A -> B) (f : B -> result C) (l : list A) :
  mapM f (map h l) = mapM (fun x => f (h x)) l.
Proof.
  induction l as [|x t IH]; simpl; [reflexivity|]. now rewrite IH.
Qed.

(** ** Facts about the numpy operations *)

Lemma norm_index_valid (n : nat) (i : Z) :
  0 <= i < Z.of_nat n -> norm_index n i = Ok (Z.to_nat i).
Proof.
  intros H. unfold norm_index.
  replace (0 <=? i) with true by (symmetry; apply Z.leb_le; lia).
  replace (i <? Z.of_nat n) with true by (symmetry; apply Z.ltb_lt; lia).
  reflexivity.
Qed.

Lemma norm_index_bound (n : nat) (i : Z) (j : nat) :
  norm_index n i = Ok j -> (j < n)%nat.
Proof.
  unfold norm_index.
  destruct ((0 <=? i) && (i <? Z.of_nat n)) eqn:E1.
  - apply andb_prop in E1 as [H1 H2].
    apply Z.leb_le in H1. apply Z.ltb_lt in H2.
    intros H; injection H as <-. lia.
  - destruct ((- Z.of_nat n <=? i) && (i <? 0)) eqn:E2; [|discriminate].
    apply andb_prop in E2 as [H1 H2].
    apply Z.leb_le in H1. apply Z.ltb_lt in H2.
    intros H; injection H as <-. lia.
Qed.

Lemma take_valid (v : list Z) (dims : list Z) :
  Forall (fun d => 0 <= d < Z.of_nat (length v)) dims ->
  take v dims = Ok (map (fun d => nth (Z.to_nat d) v 0) dims).
Proof.
  intros H. unfold take. apply mapM_Ok_map.
  intros x Hx. rewrite Forall_forall in H.
  rewrite (norm_index_valid _ _ (H x Hx)). reflexivity.
Qed.

Lemma take_all (v : list Z) :
  take v (map Z.of_nat (seq 0 (length v))) = Ok v.
Proof.
  rewrite take_valid.
  - f_equal. rewrite map_map.
    erewrite map_ext by (intros; rewrite Nat2Z.id; reflexivity).
    symmetry. apply nth_ext with (d := 0) (d' := 0).
    + now rewrite length_map, length_seq.
    + intros n Hn.
      rewrite (nth_indep (map _ _) 0 (nth 0%nat v 0))
        by (now rewrite length_map, length_seq).
      rewrite (map_nth (fun i => nth i v 0)), seq_nth by assumption.
      reflexivity.
  - apply Forall_forall. intros x Hx. apply in_map_iff in Hx as [i [<- Hi]].
    apply in_seq in Hi. lia.
Qed.

Lemma insert_unique_In (x y : Z) (l : list Z) :
  In y (insert_unique x l) <-> y = x \/ In y l.
Proof.
  induction l as [|a t IH]; simpl.
  - intuition.
  - destruct (x <? a) eqn:E1; simpl; [intuition|].
    destruct (x =? a) eqn:E2; simpl.
    + apply Z.eqb_eq in E2; subst. intuition.
    + rewrite IH. intuition.
Qed.

Lemma insert_unique_sorted (x : Z) (l : list Z) :
  StronglySorted Z.lt l -> StronglySorted Z.lt (insert_unique x l).
Proof.
  induction l as [|a t IH]; intros Hs; simpl.
  - constructor; constructor.
  - pose proof Hs as Hs'. inversion Hs' as [|? ? Ht Ha]; subst.
    destruct (x <? a) eqn:E1.
    + apply Z.ltb_lt in E1. constructor; [assumption|].
      constructor; [assumption|].
      eapply Forall_impl; [|exact Ha]. simpl; intros; lia.
    + destruct (x =? a) eqn:E2; [assumption|].
      apply Z.ltb_ge in E1. apply Z.eqb_neq in E2.
      constructor; [now apply IH|].
      apply Forall_forall. intros y Hy.
      apply insert_unique_In in Hy as [->|Hy]; [lia|].
      rewrite Forall_forall in Ha. now apply Ha.
Qed.

Lemma unique_In (l : list Z) (x : Z) : In x (unique l) <-> In x l.
Proof.
  induction l as [|a t IH]; simpl; [tauto|].
  rewrite insert_unique_In, IH. intuition.
Qed.

Lemma unique_sorted (l : list Z) : StronglySorted Z.lt (unique l).
Proof.
  induction l as [|a t IH]; simpl; [constructor|].
  now apply insert_unique_sorted.
Qed.


(** An increasing list is determined by its elements. *)
Lemma sorted_ext (l1 l2 : list Z) :
  StronglySorted Z.lt l1 -> StronglySorted Z.lt l2 ->
  (forall x, In x l1 <-> In x l2) -> l1 = l2.
Proof.
  revert l2; induction l1 as [|a t IH]; intros [|b u] H1 H2 Hin.
  - reflexivity.
  - exfalso. apply (proj2 (Hin b)). now left.
  - exfalso. apply (proj1 (Hin a)). now left.
  - inversion H1 as [|? ? Ht Ha]; inversion H2 as [|? ? Hu Hb]; subst.
    rewrite Forall_forall in Ha, Hb.
    assert (a = b) as ->.
    { destruct (proj1 (Hin a) (or_introl eq_refl)) as [E|E]; [now symmetry|].
      destruct (proj2 (Hin b) (or_introl eq_refl)) as [E'|E']; [assumption|].
      specialize (Ha _ E'). specialize (Hb _ E). lia. }
    f_equal. apply IH; try assumption.
    intros x; split; intros Hx.
    + destruct (proj1 (Hin x) (or_intror Hx)) as [E|E]; [|assumption].
      specialize (Ha _ Hx). lia.
    + destruct (proj2 (Hin x) (or_intror Hx)) as [E|E]; [|assumption].
      specialize (Hb _ Hx). lia.
Qed.

Lemma sorted_distinct_unique (s col : list Z) :
  sorted_distinct s col -> s = unique col.
Proof.
  intros [Hs Hin]. apply sorted_ext; [assumption | apply unique_sorted |].
  intros x. rewrite Hin, unique_In. tauto.
Qed.

(** [np.unique] sees a column only through the set of its values. *)
Lemma unique_ext (l1 l2 : list Z) :
  (forall x, In x l1 <-> In x l2) -> unique l1 = unique l2.
Proof.
  intros H. apply sorted_ext; try apply unique_sorted.
  intros x. rewrite !unique_In. apply H.
Qed.

Lemma sorted_NoDup (l : list Z) : StronglySorted Z.lt l -> NoDup l.
Proof.
  induction 1 as [|a t Ht IH Ha]; constructor; [|assumption].
  intros Hin. rewrite Forall_forall in Ha. specialize (Ha _ Hin). lia.
Qed.

Lemma length_unique (l : list Z) : length (unique l) = distinct_count l.
Proof.
  unfold distinct_count. apply Permutation_length, NoDup_Permutation.
  - apply sorted_NoDup, unique_sorted.
  - apply NoDup_nodup.
  - intros x. rewrite unique_In, nodup_In. tauto.
Qed.

Lemma diff_nil (dt : DType) (s : list Z) :
  diff dt s = [] <-> (length s < 2)%nat.
Proof.
  destruct s as [|a [|b t]]; simpl; split; intros H;
    try reflexivity; try lia; discriminate.
Qed.

Lemma amin_Raise (l : list Z) (e : exn) :
  amin l = Raise e <-> l = [] /\ e = ValueError.
Proof.
  destruct l; simpl; split.
  - intros H; injection H as <-; auto.
  - intros [_ ->]; reflexivity.
  - discriminate.
  - intros [H _]; discriminate.
Qed.

Lemma fold_left_min (t : list Z) (x : Z) :
  let m := fold_left Z.min t x in
  (m = x \/ In m t) /\ m <= x /\ Forall (fun y => m <= y) t.
Proof.
  revert x; induction t as [|a t IH]; intros x; simpl.
  - repeat split; auto; lia.
  - destruct (IH (Z.min x a)) as [H1 [H2 H3]].
    repeat split.
    + destruct H1 as [H1|H1]; [|auto].
      rewrite H1. destruct (Z.min_spec x a) as [[_ ->]|[_ ->]]; auto.
    + lia.
    + constructor; [lia | assumption].
Qed.

Lemma fold_left_max (t : list Z) (x : Z) :
  let m := fold_left Z.max t x in
  (m = x \/ In m t) /\ x <= m /\ Forall (fun y => y <= m) t.
Proof.
  revert x; induction t as [|a t IH]; intros x; simpl.
  - repeat split; auto; lia.
  - destruct (IH (Z.max x a)) as [H1 [H2 H3]].
    repeat split.
    + destruct H1 as [H1|H1]; [|auto].
      rewrite H1. destruct (Z.max_spec x a) as [[_ ->]|[_ ->]]; auto.
    + lia.
    + constructor; [lia | assumption].
Qed.

Lemma amin_is_min (l : list Z) (m : Z) : amin l = Ok m -> is_min m l.
Proof.
  destruct l as [|x t]; simpl; [discriminate|].
  intros H; injection H as <-.
  destruct (fold_left_min t x) as [H1 [H2 H3]]. split.
  - simpl. destruct H1; [left; now symmetry | now right].
  - constructor; assumption.
Qed.

(** The entry the loop of [minSeparation] computes for a column. *)
Lemma minsep_column (dt : DType) (col : list Z) :
  (minsep_entry dt col = Raise ValueError /\ (distinct_count col < 2)%nat)
  \/ (exists g, amin (diff dt (unique col)) = Ok g /\
                minsep_entry dt col = Ok (float64_of_int g) /\
                (2 <= distinct_count col)%nat /\
                forall s, sorted_distinct s col -> is_min g (diff dt s)).
Proof.
  rewrite <- length_unique. unfold minsep_entry.
  destruct (amin (diff dt (unique col))) as [m|e] eqn:E.
  - right. exists m. split; [reflexivity|]. split; [reflexivity|]. split.
    + destruct (Nat.lt_ge_cases (length (unique col)) 2) as [H|H]; [|assumption].
      apply (diff_nil dt) in H. rewrite H in E. discriminate.
    + intros s Hs. rewrite (sorted_distinct_unique _ _ Hs).
      now apply amin_is_min.
  - left. apply amin_Raise in E as [E ->]. split; [reflexivity|].
    now apply (diff_nil dt).
Qed.

Section Reduce.

Variable op : Z -> Z -> Z.

Lemma length_map2 (n : nat) (u v : list Z) :
  length u = n -> length v = n -> length (map2 op u v) = n.
Proof.
  revert n v; induction u as [|x u IH]; intros n [|y v] Hu Hv;
    simpl in *; try congruence.
  destruct n as [|n]; [discriminate|]. f_equal. apply IH; congruence.
Qed.

Lemma nth_map2 (d : nat) (u v : list Z) :
  length u = length v -> (d < length u)%nat ->
  nth d (map2 op u v) 0 = op (nth d u 0) (nth d v 0).
Proof.
  revert d v; induction u as [|x u IH]; intros d [|y v] Hl Hd;
    simpl in *; try lia.
  destruct d as [|d]; [reflexivity|]. apply IH; lia.
Qed.

Lemma fold_left_map2 (n d : nat) (rs : list (list Z)) (r : list Z) :
  length r = n -> Forall (fun r' => length r' = n) rs -> (d < n)%nat ->
  length (fold_left (map2 op) rs r) = n /\
  nth d (fold_left (map2 op) rs r) 0 =
    fold_left op (map (fun r' => nth d r' 0) rs) (nth d r 0).
Proof.
  intros Hr Hrs Hd. revert r Hr.
  induction Hrs as [|r' rs Hr' Hrs IH]; intros r Hr; simpl.
  - split; [assumption | reflexivity].
  - destruct (IH (map2 op r r')) as [H1 H2].
    + now apply length_map2.
    + split; [assumption|]. rewrite H2. f_equal.
      apply nth_map2; lia.
Qed.

Lemma length_fold_left_map2 (n : nat) (rs : list (list Z)) (r : list Z) :
  length r = n -> Forall (fun r' => length r' = n) rs ->
  length (fold_left (map2 op) rs r) = n.
Proof.
  intros Hr Hrs. revert r Hr.
  induction Hrs as [|r' rs Hr' Hrs IH]; intros r Hr; simpl; [assumption|].
  apply IH. now apply length_map2.
Qed.

End Reduce.

(** On an array with at least one row the cached row of ranges has one
    entry per column, the range of that column computed on its own. *)
Lemma compute_xranges_spec (X : ndarray) :
  wf X -> (1 <= shape0 X)%nat ->
  exists v, compute_xranges X = Ok v /\ length v = shape1 X /\
            forall d, (d < shape1 X)%nat -> direct_range X d = Ok (nth d v 0).
Proof.
  intros [Hlen Hrows] HN. unfold compute_xranges, reduce_axis0.
  destruct (rows X) as [|r rs] eqn:E; [simpl in Hlen; lia|].
  inversion Hrows as [|? ? Hr Hrs]; subst. simpl.
  eexists; split; [reflexivity|].
  pose proof (length_fold_left_map2 Z.max _ _ _ Hr Hrs) as Lmax.
  pose proof (length_fold_left_map2 Z.min _ _ _ Hr Hrs) as Lmin.
  split; [apply length_map2; assumption|].
  intros d Hd. unfold direct_range, column. rewrite E. simpl.
  rewrite nth_map2 by congruence.
  destruct (fold_left_map2 Z.max _ d _ _ Hr Hrs Hd) as [_ ->].
  destruct (fold_left_map2 Z.min _ d _ _ Hr Hrs Hd) as [_ ->].
  reflexivity.
Qed.

Lemma compute_xranges_empty (X : ndarray) :
  wf X -> shape0 X = 0%nat -> compute_xranges X = Raise ValueError.
Proof.
  intros [Hlen _] HN. unfold compute_xranges, reduce_axis0.
  destruct (rows X); [reflexivity | simpl in Hlen; lia].
Qed.


(** The cached row of minimum separations. *)
Lemma compute_minseps_length (X : ndarray) (v : list Z) :
  compute_minseps X = Ok v -> length v = shape1 X.
Proof.
  intros H. apply mapM_Ok_inv, Forall2_length in H.
  rewrite length_seq in H. now symmetry.
Qed.


Lemma compute_minseps_Raise (X : ndarray) (e : exn) :
  compute_minseps X = Raise e -> e = ValueError /\ exists d, degenerate X d.
Proof.
  intros H. apply mapM_Raise_inv in H as [d [Hd Hf]].
  apply in_seq in Hd.
  destruct (minsep_column (dtype X) (column X d))
    as [[E Hc]|[g [_ [E _]]]]; [|congruence].
  split; [congruence|]. exists d. split; [lia | assumption].
Qed.

Lemma compute_minseps_degenerate (X : ndarray) (d : nat) :
  degenerate X d -> compute_minseps X = Raise ValueError.
Proof.
  intros [Hd Hc].
  destruct (minsep_column (dtype X) (column X d))
    as [[E _]|[g [_ [_ [Hc' _]]]]]; [|lia].
  destruct (mapM_Raise_intro (fun i => minsep_entry (dtype X) (column X i))
              (seq 0 (shape1 X)) d ValueError) as [e He]; try assumption.
  { apply in_seq; lia. }
  unfold compute_minseps. rewrite He. f_equal.
  now destruct (compute_minseps_Raise X e He).
Qed.

(** ** Facts about the fold generator *)

Lemma mem_In (i : nat) (l : list nat) : mem i l = true <-> In i l.
Proof.
  unfold mem. rewrite existsb_exists. split.
  - intros [x [Hx E]]. apply Nat.eqb_eq in E. now subst.
  - intros H. exists i. split; [assumption | apply Nat.eqb_refl].
Qed.

Lemma firstn_add (a b : nat) (l : list nat) :
  firstn (a + b) l = firstn a l ++ firstn b (skipn a l).
Proof.
  revert l; induction a as [|a IH]; intros l; [reflexivity|].
  destruct l as [|x l]; simpl.
  - now rewrite firstn_nil.
  - now rewrite IH.
Qed.

Lemma concat_blocks (sizes : list nat) (l : list nat) :
  concat (blocks l sizes) = firstn (list_sum sizes) l.
Proof.
  revert l; induction sizes as [|s ss IH]; intros l; simpl; [reflexivity|].
  now rewrite IH, firstn_add.
Qed.

Lemma length_blocks (sizes : list nat) (l : list nat) :
  length (blocks l sizes) = length sizes.
Proof.
  revert l; induction sizes as [|s ss IH]; intros l; simpl; auto.
Qed.

Lemma list_sum_sizes (c r k : nat) :
  list_sum (map (fun j => (c + (if j <? r then 1 else 0))%nat) (seq 0 k))
  = (k * c + Nat.min r k)%nat.
Proof.
  induction k as [|k IH]; [simpl; lia|].
  rewrite seq_S, map_app, list_sum_app, IH. simpl.
  destruct (k <? r)%nat eqn:E.
  - apply Nat.ltb_lt in E. lia.
  - apply Nat.ltb_ge in E. lia.
Qed.

Lemma list_sum_fold_sizes (n k : nat) :
  (0 < k)%nat -> list_sum (fold_sizes n k) = n.
Proof.
  intros Hk. unfold fold_sizes. rewrite list_sum_sizes.
  pose proof (Nat.mod_upper_bound n k ltac:(lia)).
  pose proof (Nat.div_mod_eq n k). lia.
Qed.

Lemma length_fold_sizes (n k : nat) : length (fold_sizes n k) = k.
Proof. unfold fold_sizes. now rewrite length_map, length_seq. Qed.

(** The mask of a block, read back as indices, is the block reordered. *)
Lemma filter_mem_Permutation (n : nat) (blk : list nat) :
  NoDup blk -> (forall x, In x blk -> (x < n)%nat) ->
  Permutation (filter (fun i => mem i blk) (seq 0 n)) blk.
Proof.
  intros Hnd Hlt. apply NoDup_Permutation.
  - apply NoDup_filter, seq_NoDup.
  - assumption.
  - intros x. rewrite filter_In, mem_In, in_seq. split.
    + tauto.
    + intros Hx. specialize (Hlt x Hx). split; [lia | assumption].
Qed.

Lemma concat_masks_Permutation (n : nat) (bs : list (list nat)) :
  NoDup (concat bs) -> (forall x, In x (concat bs) -> (x < n)%nat) ->
  Permutation
    (concat (map (fun blk => filter (fun i => mem i blk) (seq 0 n)) bs))
    (concat bs).
Proof.
  induction bs as [|b bs IH]; intros Hnd Hlt; simpl; [constructor|].
  simpl in Hnd, Hlt. apply Permutation_app.
  - apply filter_mem_Permutation.
    + eapply NoDup_app_remove_r; eassumption.
    + intros x Hx. apply Hlt, in_or_app. now left.
  - apply IH.
    + eapply NoDup_app_remove_l; eassumption.
    + intros x Hx. apply Hlt, in_or_app. now right.
Qed.

(** The components of a duplicate-free concatenation are pairwise disjoint. *)
Lemma NoDup_concat_disjoint (ls : list (list nat)) :
  NoDup (concat ls) ->
  forall i j a, (i < j < length ls)%nat ->
    In a (nth i ls []) -> ~ In a (nth j ls []).
Proof.
  induction ls as [|l ls IH]; intros Hnd i j a Hij Hi Hj; simpl in Hij; [lia|].
  simpl in Hnd. destruct j as [|j]; [lia|]. simpl in Hj.
  destruct i as [|i]; simpl in Hi.
  - assert (Hc : In a (concat ls)).
    { apply in_concat. exists (nth j ls []). split; [|assumption].
      apply nth_In. lia. }
    revert Hnd Hi Hc. clear. intros Hnd Hi Hc.
    induction l as [|x l IHl]; [contradiction|].
    simpl in Hnd. inversion Hnd as [|? ? Hx Hnd']; subst.
    destruct Hi as [->|Hi]; [|now apply IHl].
    apply Hx, in_or_app. now right.
  - apply (IH (NoDup_app_remove_l _ _ Hnd) i j a); [lia | assumption..].
Qed.

Lemma mask_of_mask (n : nat) (blk : list nat) (a : nat) :
  In a (seq 0 n) ->
  mem a (filter (fun i => mem i blk) (seq 0 n)) = mem a blk.
Proof.
  intros Ha. destruct (mem a blk) eqn:E.
  - apply mem_In, filter_In. auto.
  - destruct (mem a (filter _ _)) eqn:E'; [|reflexivity].
    apply mem_In, filter_In in E' as [_ E']. congruence.
Qed.

(** [KFold] on a shuffle of [0 .. n-1], for a fold count between 2 and
    [n], yields a k-fold partition. *)
Lemma KFold_partition (n : nat) (k : Z) (idxs : list nat) :
  1 < k <= Z.of_nat n -> Permutation idxs (seq 0 n) ->
  exists folds, KFold n k idxs = Ok folds /\ kfold_partition n k folds.
Proof.
  intros Hk Hperm. unfold KFold.
  replace (k <=? 1) with false by (symmetry; apply Z.leb_gt; lia).
  replace (k >? Z.of_nat n) with false
    by (symmetry; rewrite Z.gtb_ltb; apply Z.ltb_ge; lia).
  eexists; split; [reflexivity|].
  set (bs := blocks idxs (fold_sizes n (Z.to_nat k))).
  assert (Hcat : concat bs = idxs).
  { unfold bs. rewrite concat_blocks, list_sum_fold_sizes by lia.
    assert (Hl : length idxs = n)
      by (rewrite (Permutation_length Hperm); apply length_seq).
    rewrite <- Hl at 1. apply firstn_all. }
  assert (Hnd : NoDup (concat bs)).
  { rewrite Hcat. eapply Permutation_NoDup;
      [symmetry; eassumption | apply seq_NoDup]. }
  assert (Hlt : forall x, In x (concat bs) -> (x < n)%nat).
  { intros x Hx. rewrite Hcat in Hx.
    apply (Permutation_in _ Hperm), in_seq in Hx. lia. }
  assert (Hsnd : map snd
            (map (fun blk =>
                    (filter (fun i => negb (mem i blk)) (seq 0 n),
                     filter (fun i => mem i blk) (seq 0 n))) bs)
          = map (fun blk => filter (fun i => mem i blk) (seq 0 n)) bs).
  { rewrite map_map. reflexivity. }
  assert (Hp : Permutation
            (concat (map (fun blk => filter (fun i => mem i blk) (seq 0 n)) bs))
            (seq 0 n)).
  { etransitivity; [apply concat_masks_Permutation; assumption|].
    now rewrite Hcat. }
  unfold kfold_partition. rewrite Hsnd. repeat split.
  - rewrite length_map. unfold bs.
    rewrite length_blocks, length_fold_sizes. lia.
  - exact Hp.
  - intros i j a Hij. rewrite length_map in Hij.
    rewrite <- !(map_nth snd), Hsnd. simpl.
    apply NoDup_concat_disjoint.
    + eapply Permutation_NoDup; [symmetry; exact Hp | apply seq_NoDup].
    + now rewrite length_map.
  - apply Forall_forall. intros f Hf.
    apply in_map_iff in Hf as [blk [<- _]]. simpl.
    apply filter_ext_in. intros a Ha. now rewrite mask_of_mask.
Qed.

(** ** Facts about the methods *)

Lemma take_Raise (v : list Z) (dims : list Z) (e : exn) :
  take v dims = Raise e -> e = IndexError.
Proof.
  intros H. apply mapM_Raise_inv in H as [i [_ H]].
  unfold norm_index in H.
  destruct ((0 <=? i) && (i <? Z.of_nat (length v))); [discriminate|].
  destruct ((- Z.of_nat (length v) <=? i) && (i <? 0)); [discriminate|].
  simpl in H. congruence.
Qed.


Lemma kFoldSplits_guard_fail (idxs : list nat) (k : Z) (self : GPCData) :
  k < 1 \/ k > Z.of_nat (getNum self) ->
  kFoldSplits idxs k self =
  (Raise (AssertionError "Invalid number of folds"), self).
Proof.
  intros H. unfold kFoldSplits.
  replace ((k >? 0) && (k <=? Z.of_nat (getNum self))) with false;
    [reflexivity|].
  symmetry. apply andb_false_iff. rewrite Z.gtb_ltb.
  destruct H; [left; apply Z.ltb_ge | right; apply Z.leb_gt]; lia.
Qed.

Lemma kFoldSplits_guard_pass (k : Z) (self : GPCData) :
  1 <= k <= Z.of_nat (getNum self) ->
  negb ((k >? 0) && (k <=? Z.of_nat (getNum self))) = false.
Proof.
  intros H. apply negb_false_iff, andb_true_iff. rewrite Z.gtb_ltb.
  split; [apply Z.ltb_lt | apply Z.leb_le]; lia.
Qed.

Lemma kFoldSplits_cached (idxs : list nat) (k : Z) (self : GPCData) (s : Splits) :
  1 <= k <= Z.of_nat (getNum self) ->
  splits self = Some s -> nFolds self = Some k ->
  kFoldSplits idxs k self = (Ok s, self).
Proof.
  intros Hk Hs Hn. unfold kFoldSplits.
  rewrite (kFoldSplits_guard_pass _ _ Hk), Hs, Hn, Z.eqb_refl. reflexivity.
Qed.

Lemma compute_splits_valid (idxs : list nat) (k : Z) (self : GPCData) :
  1 <= k <= Z.of_nat (getNum self) ->
  Permutation idxs (seq 0 (getNum self)) ->
  exists s, compute_splits idxs k self = Ok s /\ valid_splits self k s.
Proof.
  intros Hk Hp. unfold compute_splits, valid_splits.
  destruct (k =? 1) eqn:E; [eauto|]. apply Z.eqb_neq in E.
  destruct (KFold_partition (getNum self) k idxs) as [folds [-> Hf]];
    [lia | assumption |].
  simpl. eexists; split; [reflexivity|]. exists folds. split; [exact Hf|].
  reflexivity.
Qed.

Lemma compute_splits_total (idxs : list nat) (k : Z) (self : GPCData) :
  1 <= k <= Z.of_nat (getNum self) ->
  exists s, compute_splits idxs k self = Ok s.
Proof.
  intros Hk. unfold compute_splits, KFold.
  destruct (k =? 1) eqn:E; [eauto|]. apply Z.eqb_neq in E.
  replace (k <=? 1) with false by (symmetry; apply Z.leb_gt; lia).
  replace (k >? Z.of_nat (getNum self)) with false
    by (symmetry; rewrite Z.gtb_ltb; apply Z.ltb_ge; lia).
  simpl. eauto.
Qed.

(** A successful call either reads the cache or fills it. *)
Lemma kFoldSplits_Ok (idxs : list nat) (k : Z) (self : GPCData) :
  1 <= k <= Z.of_nat (getNum self) ->
  exists s,
    (kFoldSplits idxs k self = (Ok s, self) /\
     splits self = Some s /\ nFolds self = Some k) \/
    (kFoldSplits idxs k self = (Ok s, set_splits s k self) /\
     compute_splits idxs k self = Ok s).
Proof.
  intros Hk. destruct (compute_splits_total idxs k self Hk) as [s Hs].
  unfold kFoldSplits. rewrite (kFoldSplits_guard_pass _ _ Hk), Hs.
  destruct (splits self) as [c|] eqn:Ec; [|exists s; right; auto].
  destruct (nFolds self) as [nf|] eqn:En; [|exists s; right; auto].
  destruct (nf =? k) eqn:E.
  - apply Z.eqb_eq in E; subst nf. exists c. left. auto.
  - exists s. right. auto.
Qed.


(** *** The invariant is established by the constructor and kept by every
    method *)

Lemma init_consistent (X0 Y0 : ndarray) (xl yl : pyval) (d : GPCData) :
  wf X0 -> wf Y0 -> __init__ X0 Y0 xl yl = Ok d -> consistent d.
Proof.
  intros HX HY. unfold __init__.
  destruct (shape1 Y0 =? 1)%nat eqn:E1; simpl; [|discriminate].
  destruct (shape0 Y0 =? shape0 X0)%nat eqn:E2; simpl; [|discriminate].
  apply Nat.eqb_eq in E1, E2.
  intros H; injection H as <-. split.
  - repeat split; simpl; try assumption; apply HX || apply HY.
  - repeat split; simpl; discriminate.
Qed.

Lemma inputRange_consistent (dims : option (list Z)) (self : GPCData) :
  consistent self -> consistent (snd (inputRange dims self)).
Proof.
  intros Hc. pose proof Hc as [Hv [Hx [Hm Hs]]]. unfold inputRange.
  destruct (xranges self) as [v|] eqn:E; [exact Hc|].
  destruct (compute_xranges (X self)) as [v|e] eqn:Ec; [|exact Hc].
  simpl. split; [exact Hv|]. split; [|split]; simpl.
  - intros w Hw. congruence.
  - exact Hm.
  - exact Hs.
Qed.

Lemma minSeparation_consistent (dims : option (list Z)) (self : GPCData) :
  consistent self -> consistent (snd (minSeparation dims self)).
Proof.
  intros Hc. pose proof Hc as [Hv [Hx [Hm Hs]]]. unfold minSeparation.
  destruct (minseps self) as [v|] eqn:E; [exact Hc|].
  destruct (compute_minseps (X self)) as [v|e] eqn:Ec; [|exact Hc].
  simpl. split; [exact Hv|]. split; [|split]; simpl.
  - exact Hx.
  - intros w Hw. congruence.
  - exact Hs.
Qed.

Lemma kFoldSplits_consistent (idxs : list nat) (k : Z) (self : GPCData) :
  consistent self -> Permutation idxs (seq 0 (getNum self)) ->
  consistent (snd (kFoldSplits idxs k self)).
Proof.
  intros Hc Hp.
  destruct (Z_lt_ge_dec k 1) as [Hlt|Hge];
    [rewrite kFoldSplits_guard_fail by lia; exact Hc|].
  destruct (Z_gt_le_dec k (Z.of_nat (getNum self))) as [Hgt|Hle];
    [rewrite kFoldSplits_guard_fail by lia; exact Hc|].
  destruct (kFoldSplits_Ok idxs k self ltac:(lia)) as [s [[-> _]|[-> Hs]]];
    [exact Hc|].
  destruct Hc as [Hv [Hx [Hm _]]]. simpl.
  split; [exact Hv|]. split; [|split]; simpl; try assumption.
  intros s' k' E1 E2. injection E1 as <-. injection E2 as <-.
  exists idxs. split; assumption.
Qed.

Lemma kFoldSplits_valid (idxs : list nat) (k : Z) (self : GPCData) :
  consistent self ->
  1 <= k <= Z.of_nat (getNum self) ->
  Permutation idxs (seq 0 (getNum self)) ->
  exists s self1,
    kFoldSplits idxs k self = (Ok s, self1) /\
    valid_splits self k s /\
    splits self1 = Some s /\ nFolds self1 = Some k /\
    X self1 = X self /\ Y self1 = Y self.
Proof.
  intros [_ [_ [_ Hc]]] Hk Hp.
  destruct (kFoldSplits_Ok idxs k self Hk) as [s [[E [Hs Hn]]|[E Hs]]];
    exists s; eexists; (split; [exact E|]).
  - destruct (Hc s k Hs Hn) as [idxs0 [Hp0 H0]].
    destruct (compute_splits_valid idxs0 k self Hk Hp0) as [s0 [H1 H2]].
    assert (s0 = s) by congruence; subst s0. auto.
  - destruct (compute_splits_valid idxs k self Hk Hp) as [s0 [H1 H2]].
    assert (s0 = s) by congruence; subst s0. simpl. auto.
Qed.

Lemma kFoldSplits_other_k (idxs : list nat) (k k' : Z) (self : GPCData)
      (s : Splits) :
  splits self = Some s -> nFolds self = Some k -> k' <> k ->
  1 <= k' <= Z.of_nat (getNum self) ->
  Permutation idxs (seq 0 (getNum self)) ->
  exists s',
    kFoldSplits idxs k' self = (Ok s', set_splits s' k' self) /\
    compute_splits idxs k' self = Ok s' /\
    valid_splits self k' s'.
Proof.
  intros Hs Hn Hne Hk Hp.
  destruct (compute_splits_valid idxs k' self Hk Hp) as [s' [H1 H2]].
  exists s'. split; [|auto].
  unfold kFoldSplits. rewrite (kFoldSplits_guard_pass _ _ Hk), Hs, Hn, H1.
  replace (k =? k') with false by (symmetry; apply Z.eqb_neq; congruence).
  reflexivity.
Qed.

(** ** The concrete dataset *)

Example data6_constructed :
  __init__ Example.X6 Example.Y6 PyNone PyNone = Ok Example.data6.
Proof. reflexivity. Qed.

Example data7_constructed :
  __init__ Example.X7 Example.Y7 PyNone (PyAtom ANone) = Ok Example.data7.
Proof. reflexivity. Qed.

Lemma data6_consistent : consistent Example.data6.
Proof.
  split.
  - repeat split; repeat constructor.
  - repeat split; simpl; discriminate.
Qed.

Lemma data7_consistent : consistent Example.data7.
Proof.
  split.
  - repeat split; repeat constructor.
  - repeat split; simpl; discriminate.
Qed.

Lemma shuffled6_Permutation :
  Permutation Example.shuffled6 (seq 0 (getNum Example.data6)).
Proof. exact (Permutation_sym (Permutation_rev (seq 0 6))). Qed.


Example dataflat_constructed :
  __init__ Example.Xflat Example.Yflat
           (PyTuple [AStr "age"; AStr "height"]) PyNone
  = Ok Example.dataflat.
Proof. reflexivity. Qed.

(** A constant column makes [minSeparation] fail even when only another
    dimension is requested, while [inputRange] is unaffected. *)
Example dataflat_statistics :
  minSeparation (Some [0]) Example.dataflat
  = (Raise ValueError, Example.dataflat) /\
  fst (inputRange None Example.dataflat) = Ok [1; 0].
Proof. split; reflexivity. Qed.

(** The example arrays hold values of their dtype. *)
Example examples_in_range :
  entries_in_range Example.X6 /\ entries_in_range Example.X7 /\
  entries_in_range Example.Xflat /\ entries_in_range Example.Xodd53.
Proof. repeat split; repeat constructor; simpl; lia. Qed.

(** The conversion to float64 rounds to the nearest float64, ties to the
    even one: above 2^53 the float64 values are 2 apart, above 2^54 they
    are 4 apart, and just below 2^63 they are 1024 apart. *)
Example float64_of_int_rounds :
  float64_of_int (2 ^ 53 + 1) = 2 ^ 53 /\
  float64_of_int (2 ^ 53 + 2) = 2 ^ 53 + 2 /\
  float64_of_int (2 ^ 53 + 3) = 2 ^ 53 + 4 /\
  float64_of_int (- (2 ^ 53 + 3)) = - (2 ^ 53 + 4) /\
  float64_of_int (2 ^ 54 + 1) = 2 ^ 54 /\
  float64_of_int (2 ^ 54 + 2) = 2 ^ 54 /\
  float64_of_int (2 ^ 54 + 3) = 2 ^ 54 + 4 /\
  float64_of_int (2 ^ 63 - 1) = 2 ^ 63 /\
  float64_of_int (2 ^ 63 - 513) = 2 ^ 63 - 1024 /\
  float64_of_int (- 2 ^ 63) = - 2 ^ 63.
Proof. repeat split. Qed.

(** A least gap of 2^53 + 1 is stored in the float64 cache as 2^53. *)
Example dataodd53_rounds :
  fst (minSeparation None Example.dataodd53) = Ok [2 ^ 53] /\
  fst (inputRange None Example.dataodd53) = Ok [2 ^ 53 + 1].
Proof. split; reflexivity. Qed.

Example data6_statistics :
  fst (minSeparation None Example.data6) = Ok [1] /\
  fst (inputRange None Example.data6) = Ok [5] /\
  fst (getLengthscaleBounds None Example.data6) = Ok [[1]; [10]].
Proof. repeat split. Qed.

(** ** The k-fold partition and its cache *)



Lemma nth_map_lt {A B : Type} (g : A -> B) (l : list A) (i : nat) (d : B) (d' : A) :
  (i < length l)%nat -> nth i (map g l) d = g (nth i l d').
Proof.
  intros Hi. rewrite (nth_indep _ d (g d')) by (now rewrite length_map).
  apply map_nth.
Qed.

Lemma take_rows_rows_at (a : ndarray) (ind : list nat) :
  rows_at a ind (take_rows a ind).
Proof.
  unfold rows_at, take_rows. simpl.
  split; [reflexivity|]. split; [reflexivity|]. split; [reflexivity|].
  split; [apply length_map|].
  intros j Hj.
  exact (nth_map_lt (fun i => nth i (rows a) []) ind j [] 0%nat Hj).
Qed.

(** C4: for [1 < k <= N] the four lists returned by [kFoldSplits(k)] hold
    one array per fold of [k] index folds whose test blocks are pairwise
    disjoint and cover the row indices [0 .. N-1] exactly once, each
    training block being the indices outside its test block: the
    training arrays of fold [i] hold the rows of [X] and of [Y] at the
    training indices of fold [i], and the test arrays the rows of [X] and
    of [Y] at its test indices. *)
Theorem kFoldSplits_partition (self : GPCData) (idxs : list nat) (k : Z) :
  consistent self ->
  1 < k <= Z.of_nat (getNum self) ->
  Permutation idxs (seq 0 (getNum self)) ->
  exists folds Xs Ys XTs YTs,
    fst (kFoldSplits idxs k self) = Ok (Xs, Ys, XTs, YTs) /\
    kfold_partition (getNum self) k folds /\
    length Xs = length folds /\ length Ys = length folds /\
    length XTs = length folds /\ length YTs = length folds /\
    forall i, (i < length folds)%nat ->
      rows_at (X self) (fst (nth i folds ([], []))) (nth i Xs (X self)) /\
      rows_at (Y self) (fst (nth i folds ([], []))) (nth i Ys (Y self)) /\
      rows_at (X self) (snd (nth i folds ([], []))) (nth i XTs (X self)) /\
      rows_at (Y self) (snd (nth i folds ([], []))) (nth i YTs (Y self)).
Proof.
  intros Hc Hk Hp.
  destruct (kFoldSplits_valid idxs k self Hc ltac:(lia) Hp)
    as [s [self1 [E [Hv _]]]].
  unfold valid_splits in Hv.
  replace (k =? 1) with false in Hv by (symmetry; apply Z.eqb_neq; lia).
  destruct Hv as [folds [Hf ->]].
  exists folds. unfold splits_of in E.
  eexists; eexists; eexists; eexists. rewrite E.
  split; [reflexivity|]. split; [exact Hf|].
  rewrite !length_map. repeat (split; [reflexivity|]).
  intros i Hi.
  rewrite !(nth_map_lt _ folds i _ ([], [])) by exact Hi.
  repeat split; apply take_rows_rows_at.
Qed.

Lemma kFoldSplits_partition_witness :
  consistent Example.data6 /\
  1 < 4 <= Z.of_nat (getNum Example.data6) /\
  Permutation Example.shuffled6 (seq 0 (getNum Example.data6)) /\
  exists folds Xs Ys XTs YTs,
    fst (kFoldSplits Example.shuffled6 4 Example.data6)
    = Ok (Xs, Ys, XTs, YTs) /\
    kfold_partition (getNum Example.data6) 4 folds /\
    length XTs = length folds /\
    forall i, (i < length folds)%nat ->
      rows_at (X Example.data6) (snd (nth i folds ([], [])))
              (nth i XTs (X Example.data6)).
Proof.
  split; [exact data6_consistent|].
  split; [unfold getNum; simpl; lia|].
  split; [exact shuffled6_Permutation|].
  destruct (kFoldSplits_partition Example.data6 Example.shuffled6 4
              data6_consistent ltac:(unfold getNum; simpl; lia)
              shuffled6_Permutation)
    as [folds [Xs [Ys [XTs [YTs [E [Hf [_ [_ [Hl [_ Hrows]]]]]]]]]]].
  exists folds, Xs, Ys, XTs, YTs.
  split; [exact E|]. split; [exact Hf|]. split; [exact Hl|].
  intros i Hi. now destruct (Hrows i Hi) as [_ [_ [H _]]].
Defined.

(** C5: on a dataset with at least one row, [kFoldSplits(1)] returns four
    one-element lists holding the full inputs, the full outputs, the full
    inputs and the full outputs. *)
Theorem kFoldSplits_one_is_whole_dataset (self : GPCData) (idxs : list nat) :
  consistent self ->
  (1 <= getNum self)%nat ->
  fst (kFoldSplits idxs 1 self) = Ok ([X self], [Y self], [X self], [Y self]).
Proof.
  intros [_ [_ [_ Hc]]] HN.
  destruct (kFoldSplits_Ok idxs 1 self ltac:(lia)) as [s [[E [Hs Hn]]|[E Hs]]];
    rewrite E; simpl.
  - destruct (Hc s 1 Hs Hn) as [idxs0 [_ H0]].
    unfold compute_splits in H0. simpl in H0. congruence.
  - unfold compute_splits in Hs. simpl in Hs. congruence.
Qed.

Lemma kFoldSplits_one_is_whole_dataset_witness :
  consistent Example.data6 /\
  (1 <= getNum Example.data6)%nat /\
  fst (kFoldSplits Example.shuffled6 1 Example.data6)
  = Ok ([Example.X6], [Example.Y6], [Example.X6], [Example.Y6]).
Proof.
  split; [exact data6_consistent|].
  split; [unfold getNum; simpl; lia|].
  apply (kFoldSplits_one_is_whole_dataset Example.data6 Example.shuffled6).
  - exact data6_consistent.
  - unfold getNum; simpl; lia.
Defined.

(** C6: [kFoldSplits(k)] raises exactly when [k < 1] or [k > N], and then
    it is the assertion "Invalid number of folds" that fails; in
    particular [k = 0] and [k = N + 1] fail. *)
Theorem kFoldSplits_raises_iff (self : GPCData) (idxs : list nat) (k : Z) :
  ((exists e, fst (kFoldSplits idxs k self) = Raise e) <->
   (k < 1 \/ k > Z.of_nat (getNum self))) /\
  (forall e, fst (kFoldSplits idxs k self) = Raise e ->
             e = AssertionError "Invalid number of folds") /\
  fst (kFoldSplits idxs 0 self)
  = Raise (AssertionError "Invalid number of folds") /\
  fst (kFoldSplits idxs (Z.of_nat (getNum self) + 1) self)
  = Raise (AssertionError "Invalid number of folds").
Proof.
  assert (Hin : 1 <= k <= Z.of_nat (getNum self) ->
                exists s, fst (kFoldSplits idxs k self) = Ok s).
  { intros Hk.
    destruct (kFoldSplits_Ok idxs k self Hk) as [s [[E _]|[E _]]];
      exists s; now rewrite E. }
  split; [split|split; [|split]].
  - intros [e He].
    destruct (Z_lt_ge_dec k 1) as [?|?]; [now left|].
    destruct (Z_gt_le_dec k (Z.of_nat (getNum self))) as [?|?]; [now right|].
    destruct Hin as [s Hs]; [lia | congruence].
  - intros H. rewrite kFoldSplits_guard_fail by assumption. simpl. eauto.
  - intros e He.
    destruct (Z_lt_ge_dec k 1) as [?|?];
      [rewrite kFoldSplits_guard_fail in He by lia; simpl in He; congruence|].
    destruct (Z_gt_le_dec k (Z.of_nat (getNum self))) as [?|?];
      [rewrite kFoldSplits_guard_fail in He by lia; simpl in He; congruence|].
    destruct Hin as [s Hs]; [lia | congruence].
  - rewrite kFoldSplits_guard_fail by lia. reflexivity.
  - rewrite kFoldSplits_guard_fail by lia. reflexivity.
Qed.

(** C10: a fold request that fails the assertion changes nothing: after a
    successful [kFoldSplits(k)], a call with [k' < 1] or [k' > N] raises
    and returns the instance as it was, and asking for [k] again still
    returns the cached partition. *)
Theorem kFoldSplits_failure_keeps_cache
        (self self1 : GPCData) (idxs idxs' : list nat) (k k' : Z) (s : Splits) :
  kFoldSplits idxs k self = (Ok s, self1) ->
  k' < 1 \/ k' > Z.of_nat (getNum self) ->
  kFoldSplits idxs' k' self1
  = (Raise (AssertionError "Invalid number of folds"), self1) /\
  forall idxs'',
    kFoldSplits idxs'' k (snd (kFoldSplits idxs' k' self1)) = (Ok s, self1).
Proof.
  intros E Hk'.
  assert (Hk : 1 <= k <= Z.of_nat (getNum self)).
  { destruct (Z_lt_ge_dec k 1) as [?|?];
      [rewrite kFoldSplits_guard_fail in E by lia; discriminate|].
    destruct (Z_gt_le_dec k (Z.of_nat (getNum self))) as [?|?];
      [rewrite kFoldSplits_guard_fail in E by lia; discriminate|].
    lia. }
  assert (H1 : splits self1 = Some s /\ nFolds self1 = Some k /\
               getNum self1 = getNum self).
  { destruct (kFoldSplits_Ok idxs k self Hk) as [s0 [[E0 [Hs Hn]]|[E0 Hs]]];
      rewrite E0 in E; injection E as <- <-; auto. }
  destruct H1 as [Hs [Hn HN]].
  assert (Hfail : kFoldSplits idxs' k' self1
                  = (Raise (AssertionError "Invalid number of folds"), self1))
    by (apply kFoldSplits_guard_fail; rewrite HN; assumption).
  split; [exact Hfail|].
  intros idxs''. rewrite Hfail. simpl.
  apply kFoldSplits_cached; [rewrite HN|..]; assumption.
Qed.

Lemma kFoldSplits_failure_keeps_cache_witness :
  kFoldSplits Example.shuffled6 3 Example.data6
  = (Ok Example.splits6_3, Example.data6_3) /\
  (7 < 1 \/ 7 > Z.of_nat (getNum Example.data6)) /\
  kFoldSplits [] 7 Example.data6_3
  = (Raise (AssertionError "Invalid number of folds"), Example.data6_3) /\
  forall idxs'',
    kFoldSplits idxs'' 3 (snd (kFoldSplits [] 7 Example.data6_3))
    = (Ok Example.splits6_3, Example.data6_3).
Proof.
  split; [reflexivity|].
  split; [right; unfold getNum; simpl; lia|].
  apply (kFoldSplits_failure_keeps_cache
           Example.data6 Example.data6_3 Example.shuffled6 [] 3 7
           Example.splits6_3).
  - reflexivity.
  - right. unfold getNum; simpl; lia.
Defined.

(** ** The cached statistics *)



(** What a call returns does not depend on the state of the cache. *)
Lemma minSeparation_fst (dims : option (list Z)) (self : GPCData) :
  consistent self ->
  fst (minSeparation dims self)
  = bind (compute_minseps (X self))
         (fun v => take v (dims_or_all dims self)).
Proof.
  intros [_ [_ [Hm _]]]. unfold minSeparation.
  destruct (minseps self) as [v|] eqn:E.
  - now rewrite (Hm v eq_refl).
  - now destruct (compute_minseps (X self)).
Qed.

Lemma inputRange_fst (dims : option (list Z)) (self : GPCData) :
  consistent self ->
  fst (inputRange dims self)
  = bind (compute_xranges (X self))
         (fun v => take v (dims_or_all dims self)).
Proof.
  intros [_ [Hx _]]. unfold inputRange.
  destruct (xranges self) as [v|] eqn:E.
  - now rewrite (Hx v eq_refl).
  - now destruct (compute_xranges (X self)).
Qed.

(** After a call the cache is filled whenever the computation succeeds. *)
Lemma minSeparation_snd (dims : option (list Z)) (self : GPCData) (v : list Z) :
  consistent self -> compute_minseps (X self) = Ok v ->
  minseps (snd (minSeparation dims self)) = Some v.
Proof.
  intros [_ [_ [Hm _]]] Hv. unfold minSeparation.
  destruct (minseps self) as [w|] eqn:E.
  - simpl. rewrite E. f_equal. specialize (Hm w eq_refl). congruence.
  - now rewrite Hv.
Qed.

Lemma inputRange_snd (dims : option (list Z)) (self : GPCData) (v : list Z) :
  consistent self -> compute_xranges (X self) = Ok v ->
  xranges (snd (inputRange dims self)) = Some v.
Proof.
  intros [_ [Hx _]] Hv. unfold inputRange.
  destruct (xranges self) as [w|] eqn:E.
  - simpl. rewrite E. f_equal. specialize (Hx w eq_refl). congruence.
  - now rewrite Hv.
Qed.

Lemma minSeparation_X (dims : option (list Z)) (self : GPCData) :
  X (snd (minSeparation dims self)) = X self.
Proof.
  unfold minSeparation. destruct (minseps self); [reflexivity|].
  now destruct (compute_minseps (X self)).
Qed.


Lemma compute_minseps_total (X : ndarray) :
  (forall d, ~ degenerate X d) -> exists v, compute_minseps X = Ok v.
Proof.
  intros H. destruct (compute_minseps X) as [v|e] eqn:E; [eauto|].
  destruct (compute_minseps_Raise X e E) as [_ [d Hd]].
  now destruct (H d).
Qed.

(** The bounds are the two statistics stacked. *)
Lemma getLengthscaleBounds_fst (dims : option (list Z)) (self : GPCData) :
  consistent self ->
  fst (getLengthscaleBounds dims self)
  = bind (fst (minSeparation dims self)) (fun lower =>
    bind (fst (inputRange dims self)) (fun r =>
    Ok (vstack2 lower (map (fun x => wrap (dtype (X self)) (x * 2)) r)))).
Proof.
  intros Hc.
  pose proof (minSeparation_consistent (Some (dims_or_all dims self)) self Hc)
    as Hc1.
  pose proof (minSeparation_fst (Some (dims_or_all dims self)) self Hc) as H1.
  pose proof (inputRange_fst (Some (dims_or_all dims self)) _ Hc1) as H2.
  rewrite minSeparation_X in H2.
  rewrite (minSeparation_fst dims self Hc), (inputRange_fst dims self Hc).
  unfold getLengthscaleBounds, bindM.
  destruct (minSeparation (Some (dims_or_all dims self)) self) as [r1 s1].
  simpl in H1, H2. rewrite <- H1.
  destruct r1 as [lower|e]; [|reflexivity]. simpl.
  destruct (inputRange (Some (dims_or_all dims self)) s1) as [r2 s2].
  simpl in H2. rewrite <- H2.
  destruct r2 as [r|e]; reflexivity.
Qed.

Lemma getLengthscaleBounds_consistent (dims : option (list Z)) (self : GPCData) :
  consistent self -> consistent (snd (getLengthscaleBounds dims self)).
Proof.
  intros Hc. unfold getLengthscaleBounds, bindM.
  pose proof (minSeparation_consistent (Some (dims_or_all dims self)) self Hc)
    as Hc1.
  destruct (minSeparation (Some (dims_or_all dims self)) self) as [[lower|e] s1];
    [|exact Hc1].
  simpl in Hc1.
  pose proof (inputRange_consistent (Some (dims_or_all dims self)) s1 Hc1)
    as Hc2.
  destruct (inputRange (Some (dims_or_all dims self)) s1) as [[r|e] s2];
    exact Hc2.
Qed.

(** The range of a column computed on its own is the distance between its
    greatest and its least value, as the array's dtype holds it. *)
Lemma direct_range_spec (X : ndarray) (d : nat) (r : Z) :
  direct_range X d = Ok r ->
  exists mx mn,
    In mx (column X d) /\ In mn (column X d) /\
    Forall (fun x => mn <= x <= mx) (column X d) /\
    r = wrap (dtype X) (mx - mn).
Proof.
  unfold direct_range, amax, amin.
  destruct (column X d) as [|x t]; simpl; [discriminate|].
  intros H; injection H as <-.
  destruct (fold_left_max t x) as [M1 [M2 M3]].
  destruct (fold_left_min t x) as [m1 [m2 m3]].
  exists (fold_left Z.max t x), (fold_left Z.min t x).
  split; [destruct M1; [left; now symmetry | now right]|].
  split; [destruct m1; [left; now symmetry | now right]|].
  split; [|reflexivity].
  constructor; [lia|].
  rewrite Forall_forall in *. intros y Hy.
  specialize (M3 y Hy). specialize (m3 y Hy). lia.
Qed.

(** *** Wrap-around and the conversion to float64 *)


(** Whatever the arithmetic result, the array holds a value of its
    dtype. *)
Lemma wrap_range (dt : DType) (z : Z) : in_range dt (wrap dt z).
Proof.
  unfold in_range, wrap, min_value, max_value.
  destruct dt as [w|w]; destruct w; simpl;
    match goal with
    | |- context [?a mod ?b] =>
        pose proof (Z.mod_pos_bound a b ltac:(lia))
    end; lia.
Qed.



(** *** The differences of neighbours *)













Lemma is_max_unique (l : list Z) (m m' : Z) :
  is_max m l -> is_max m' l -> m = m'.
Proof.
  intros [H1 H2] [H3 H4]. rewrite Forall_forall in H2, H4.
  specialize (H2 _ H3). specialize (H4 _ H1). lia.
Qed.

Lemma is_min_unique (l : list Z) (m m' : Z) :
  is_min m l -> is_min m' l -> m = m'.
Proof.
  intros [H1 H2] [H3 H4]. rewrite Forall_forall in H2, H4.
  specialize (H2 _ H3). specialize (H4 _ H1). lia.
Qed.





Lemma column_rows_ext (X1 X2 : ndarray) (d : nat) :
  (forall r, In r (rows X1) <-> In r (rows X2)) ->
  forall x, In x (column X1 d) <-> In x (column X2 d).
Proof.
  intros H x. unfold column. rewrite !in_map_iff.
  split; intros [r [E Hr]]; exists r; (split; [exact E|]); now apply H.
Qed.

(** The cached row of minimum separations sees the array only through the
    set of values of each column. *)
Lemma compute_minseps_ext (X1 X2 : ndarray) :
  dtype X1 = dtype X2 ->
  shape1 X1 = shape1 X2 ->
  (forall d x, In x (column X1 d) <-> In x (column X2 d)) ->
  compute_minseps X1 = compute_minseps X2.
Proof.
  intros Ht Hs H. unfold compute_minseps, minsep_entry. rewrite Hs, Ht.
  apply mapM_ext_in. intros d _. now rewrite (unique_ext _ _ (H d)).
Qed.

(** C9: two datasets with input arrays of the same dtype and number of
    dimensions whose input rows are a permutation of each other, or are
    the same rows up to repetitions, or more generally whose columns hold
    the same sets of values, get the same outcome from [minSeparation]
    for every request. *)
Theorem minSeparation_row_invariant
        (self1 self2 : GPCData) (dims : option (list Z)) :
  consistent self1 -> consistent self2 ->
  dtype (X self1) = dtype (X self2) ->
  shape1 (X self1) = shape1 (X self2) ->
  Permutation (rows (X self1)) (rows (X self2)) \/
  (forall r, In r (rows (X self1)) <-> In r (rows (X self2))) \/
  (forall d x, In x (column (X self1) d) <-> In x (column (X self2) d)) ->
  fst (minSeparation dims self1) = fst (minSeparation dims self2).
Proof.
  intros Hc1 Hc2 Ht Hs H.
  assert (Hcol : forall d x,
             In x (column (X self1) d) <-> In x (column (X self2) d)).
  { destruct H as [Hp|[Hr|Hcol]]; [| |exact Hcol].
    - intros d. apply column_rows_ext. intros r. split.
      + apply Permutation_in. exact Hp.
      + apply Permutation_in. symmetry. exact Hp.
    - intros d. now apply column_rows_ext. }
  rewrite (minSeparation_fst dims self1 Hc1), (minSeparation_fst dims self2 Hc2).
  rewrite (compute_minseps_ext _ _ Ht Hs Hcol).
  assert (Hd : dims_or_all dims self1 = dims_or_all dims self2).
  { destruct dims; [reflexivity|]. simpl. unfold getDim. now rewrite Hs. }
  now rewrite Hd.
Qed.

Lemma minSeparation_row_invariant_witness :
  consistent Example.data6 /\ consistent Example.data7 /\
  dtype (X Example.data6) = dtype (X Example.data7) /\
  shape1 (X Example.data6) = shape1 (X Example.data7) /\
  (forall r, In r (rows (X Example.data6)) <-> In r (rows (X Example.data7))) /\
  fst (minSeparation None Example.data6)
  = fst (minSeparation None Example.data7).
Proof.
  assert (Hr : forall r, In r (rows (X Example.data6))
                         <-> In r (rows (X Example.data7)))
    by (intros r; simpl; tauto).
  split; [exact data6_consistent|].
  split; [exact data7_consistent|].
  split; [reflexivity|]. split; [reflexivity|]. split; [exact Hr|].
  apply (minSeparation_row_invariant Example.data6 Example.data7 None).
  - exact data6_consistent.
  - exact data7_consistent.
  - reflexivity.
  - reflexivity.
  - right. left. exact Hr.
Defined.

(** ** Construction *)

(** The labels generated by the constructor are not the plain strings
    "x_1", ...: for one dimension and no label argument the single label
    is "$x_{1}$". *)
Lemma XLabel_default_not_plain :
  exists d, __init__ Example.X6 Example.Y6 PyNone PyNone = Ok d /\
            XLabel d = [AStr "$x_{1}$"] /\
            XLabel d <> [AStr "x_1"].
Proof.
  exists Example.data6. split; [reflexivity|]. split; [reflexivity|].
  simpl. discriminate.
Qed.

(** C3 (as the code has it): when the label argument is [None], or is not
    a list or tuple, or has a length other than D, the input labels are
    "$x_{1}$", "$x_{2}$", ..., "$x_{D}$" (the decimal digits of the
    1-based dimension between "$x_{" and "}$"), one per dimension; when it
    is a list or tuple of length D its elements are the labels. *)
Theorem init_XLabel (X0 Y0 : ndarray) (xl yl : pyval) (d : GPCData) :
  __init__ X0 Y0 xl yl = Ok d ->
  (forall l, as_list_or_tuple xl = Some l -> length l = shape1 X0 ->
             XLabel d = l) /\
  ((xl = PyNone \/ as_list_or_tuple xl = None \/
    (exists l, as_list_or_tuple xl = Some l /\ length l <> shape1 X0)) ->
   XLabel d
   = map (fun i => AStr ("$x_{" ++ format_nat (i + 1) ++ "}$"))
         (seq 0 (shape1 X0)) /\
   length (XLabel d) = shape1 X0).
Proof.
  unfold __init__.
  destruct (negb (shape1 Y0 =? 1)%nat); [discriminate|].
  destruct (negb (shape0 Y0 =? shape0 X0)%nat); [discriminate|].
  intros H; injection H as <-. simpl. split.
  - intros l -> Hl. now rewrite (proj2 (Nat.eqb_eq _ _) Hl).
  - intros H.
    assert (Hdef : match as_list_or_tuple xl with
                   | Some l => if (length l =? shape1 X0)%nat then l
                               else map default_XLabel (seq 0 (shape1 X0))
                   | None => map default_XLabel (seq 0 (shape1 X0))
                   end = map default_XLabel (seq 0 (shape1 X0))).
    { destruct H as [->|[->|[l [-> Hl]]]]; try reflexivity.
      now rewrite (proj2 (Nat.eqb_neq _ _) Hl). }
    rewrite Hdef. split; [reflexivity|].
    now rewrite length_map, length_seq.
Qed.

Lemma init_XLabel_witness :
  __init__ Example.X6 Example.Y6 PyNone PyNone = Ok Example.data6 /\
  XLabel Example.data6
  = map (fun i => AStr ("$x_{" ++ format_nat (i + 1) ++ "}$"))
        (seq 0 (shape1 Example.X6)).
Proof.
  split; [reflexivity|].
  apply (proj2 (init_XLabel Example.X6 Example.Y6 PyNone PyNone Example.data6
                  eq_refl)).
  left. reflexivity.
Defined.

(** ** Further properties of the constructor *)

(** X1: the constructor checks the shape of [Y] before the row counts: a
    [Y] that is not a single column fails "Y must be a vector" whatever
    the row counts; a single-column [Y] with another number of rows than
    [X] fails "X and Y must contain the same number of entries";
    otherwise the instance holds the two arrays as given, [getNum] is the
    row count of both, and no cache is set. *)
Theorem init_outcome (X0 Y0 : ndarray) (xl yl : pyval) :
  (shape1 Y0 <> 1%nat ->
   __init__ X0 Y0 xl yl = Raise (AssertionError "Y must be a vector")) /\
  (shape1 Y0 = 1%nat -> shape0 Y0 <> shape0 X0 ->
   __init__ X0 Y0 xl yl
   = Raise (AssertionError "X and Y must contain the same number of entries"))
  /\
  (shape1 Y0 = 1%nat -> shape0 Y0 = shape0 X0 ->
   exists d, __init__ X0 Y0 xl yl = Ok d /\
             X d = X0 /\ Y d = Y0 /\
             getNum d = shape0 Y0 /\ getDim d = shape1 X0 /\
             xranges d = None /\ minseps d = None /\
             splits d = None /\ nFolds d = None).
Proof.
  unfold __init__. repeat split.
  - intros H. now rewrite (proj2 (Nat.eqb_neq _ _) H).
  - intros H1 H2.
    now rewrite (proj2 (Nat.eqb_eq _ _) H1), (proj2 (Nat.eqb_neq _ _) H2).
  - intros H1 H2.
    rewrite (proj2 (Nat.eqb_eq _ _) H1), (proj2 (Nat.eqb_eq _ _) H2). simpl.
    eexists; split; [reflexivity|]. simpl. unfold getNum, getDim. simpl.
    repeat split. now symmetry.
Qed.

(** X2: every constructed instance has one input label per dimension and
    a list or tuple of two output labels; the output label argument is
    kept as it is when it is a list or tuple of two elements, and
    replaced by ["negative", "positive"] in every other case. *)
Theorem init_labels (X0 Y0 : ndarray) (xl yl : pyval) (d : GPCData) :
  __init__ X0 Y0 xl yl = Ok d ->
  length (XLabel d) = getDim d /\
  (exists l, as_list_or_tuple (YLabel d) = Some l /\ length l = 2%nat) /\
  ((exists l, as_list_or_tuple yl = Some l /\ length l = 2%nat) ->
   YLabel d = yl) /\
  ((as_list_or_tuple yl = None \/
    exists l, as_list_or_tuple yl = Some l /\ length l <> 2%nat) ->
   YLabel d = PyList [AStr "negative"; AStr "positive"]).
Proof.
  unfold __init__.
  destruct (negb (shape1 Y0 =? 1)%nat); [discriminate|].
  destruct (negb (shape0 Y0 =? shape0 X0)%nat); [discriminate|].
  intros H; injection H as <-. unfold getDim. simpl.
  split; [|split; [|split]].
  - destruct (as_list_or_tuple xl) as [l|].
    + destruct (length l =? shape1 X0)%nat eqn:E.
      * now apply Nat.eqb_eq.
      * now rewrite length_map, length_seq.
    + now rewrite length_map, length_seq.
  - destruct (as_list_or_tuple yl) as [l|] eqn:E.
    + destruct (length l =? 2)%nat eqn:E2.
      * exists l. split; [exact E | now apply Nat.eqb_eq].
      * eexists; split; reflexivity.
    + eexists; split; reflexivity.
  - intros [l [-> Hl]]. now rewrite (proj2 (Nat.eqb_eq _ _) Hl).
  - intros [->|[l [-> Hl]]]; [reflexivity|].
    now rewrite (proj2 (Nat.eqb_neq _ _) Hl).
Qed.

Lemma init_labels_witness :
  __init__ Example.Xflat Example.Yflat
           (PyTuple [AStr "age"; AStr "height"]) PyNone
  = Ok Example.dataflat /\
  length (XLabel Example.dataflat) = getDim Example.dataflat /\
  YLabel Example.dataflat = PyList [AStr "negative"; AStr "positive"].
Proof.
  split; [reflexivity|].
  destruct (init_labels Example.Xflat Example.Yflat
              (PyTuple [AStr "age"; AStr "height"]) PyNone Example.dataflat
              eq_refl) as [H1 [_ [_ H2]]].
  split; [exact H1|]. apply H2. left. reflexivity.
Defined.

(** ** Sequences of calls *)

Lemma inputRange_frame (dims : option (list Z)) (self : GPCData) :
  let s := snd (inputRange dims self) in
  X s = X self /\ Y s = Y self /\ XLabel s = XLabel self /\
  YLabel s = YLabel self.
Proof.
  unfold inputRange. destruct (xranges self); [simpl; auto|].
  destruct (compute_xranges (X self)); simpl; auto.
Qed.

Lemma minSeparation_frame (dims : option (list Z)) (self : GPCData) :
  let s := snd (minSeparation dims self) in
  X s = X self /\ Y s = Y self /\ XLabel s = XLabel self /\
  YLabel s = YLabel self.
Proof.
  unfold minSeparation. destruct (minseps self); [simpl; auto|].
  destruct (compute_minseps (X self)); simpl; auto.
Qed.

Lemma getLengthscaleBounds_frame (dims : option (list Z)) (self : GPCData) :
  let s := snd (getLengthscaleBounds dims self) in
  X s = X self /\ Y s = Y self /\ XLabel s = XLabel self /\
  YLabel s = YLabel self.
Proof.
  unfold getLengthscaleBounds, bindM.
  pose proof (minSeparation_frame (Some (dims_or_all dims self)) self) as H1.
  destruct (minSeparation (Some (dims_or_all dims self)) self) as [[lower|e] s1];
    [|exact H1].
  simpl in H1. destruct H1 as [A1 [A2 [A3 A4]]].
  pose proof (inputRange_frame (Some (dims_or_all dims self)) s1) as H2.
  destruct (inputRange (Some (dims_or_all dims self)) s1) as [[r|e] s2];
    simpl in *; destruct H2 as [B1 [B2 [B3 B4]]];
    repeat split; congruence.
Qed.

Lemma kFoldSplits_frame (idxs : list nat) (k : Z) (self : GPCData) :
  let s := snd (kFoldSplits idxs k self) in
  X s = X self /\ Y s = Y self /\ XLabel s = XLabel self /\
  YLabel s = YLabel self.
Proof.
  unfold kFoldSplits.
  destruct (negb ((k >? 0) && (k <=? Z.of_nat (getNum self))));
    [simpl; auto|].
  destruct (compute_splits idxs k self) as [r|e];
    destruct (splits self) as [c|]; destruct (nFolds self) as [nf|];
    try destruct (nf =? k); simpl; auto.
Qed.

Lemma after_frame (c : call) (self : GPCData) :
  X (after c self) = X self /\ Y (after c self) = Y self /\
  XLabel (after c self) = XLabel self /\ YLabel (after c self) = YLabel self.
Proof.
  destruct c; simpl.
  - apply inputRange_frame.
  - apply minSeparation_frame.
  - apply getLengthscaleBounds_frame.
  - apply getLengthscaleBounds_frame.
  - apply kFoldSplits_frame.
  - auto.
Qed.

Lemma after_consistent (c : call) (self : GPCData) :
  consistent self -> shuffle_ok (getNum self) c -> consistent (after c self).
Proof.
  intros Hc Hs. destruct c; simpl in *.
  - now apply inputRange_consistent.
  - now apply minSeparation_consistent.
  - now apply getLengthscaleBounds_consistent.
  - now apply getLengthscaleBounds_consistent.
  - now apply kFoldSplits_consistent.
  - exact Hc.
Qed.

Lemma dims_or_all_X (dims : option (list Z)) (s1 s2 : GPCData) :
  X s1 = X s2 -> dims_or_all dims s1 = dims_or_all dims s2.
Proof.
  intros H. destruct dims; [reflexivity|]. simpl. unfold getDim.
  now rewrite H.
Qed.

Lemma run_consistent (cs : list call) (self : GPCData) :
  consistent self -> Forall (shuffle_ok (getNum self)) cs ->
  consistent (run cs self).
Proof.
  unfold run. revert self.
  induction cs as [|c cs IH]; intros d Hc Hcs; simpl; [exact Hc|].
  inversion Hcs as [|? ? H1 H2]; subst.
  apply IH.
  - now apply after_consistent.
  - destruct (after_frame c d) as [A _]. unfold getNum. now rewrite A.
Qed.

Lemma run_X (cs : list call) (self : GPCData) :
  X (run cs self) = X self /\ Y (run cs self) = Y self.
Proof.
  unfold run. revert self. induction cs as [|c cs IH]; intros self; simpl.
  - split; reflexivity.
  - destruct (IH (after c self)) as [H1 H2].
    destruct (after_frame c self) as [A1 [A2 _]]. split; congruence.
Qed.

(** X3: no method ever changes the arrays or the labels: after any
    sequence of calls, failed ones included, [X], [Y], [XLabel] and
    [YLabel] are those the constructor stored, and so are [getNum] and
    [getDim]. *)
Theorem run_never_changes_data (cs : list call) (self : GPCData) :
  X (run cs self) = X self /\ Y (run cs self) = Y self /\
  XLabel (run cs self) = XLabel self /\ YLabel (run cs self) = YLabel self /\
  getNum (run cs self) = getNum self /\ getDim (run cs self) = getDim self.
Proof.
  unfold run. revert self. induction cs as [|c cs IH]; intros self; simpl.
  - repeat split.
  - destruct (IH (after c self)) as [H1 [H2 [H3 [H4 [H5 H6]]]]].
    destruct (after_frame c self) as [A1 [A2 [A3 A4]]].
    unfold getNum, getDim in *.
    repeat split; congruence.
Qed.

(** X4: starting from the constructor, after any sequence of calls in
    which every shuffle is a permutation of the row indices, each cache
    that is set holds exactly what the code would compute for it from
    [X] and [Y]: the range row, the row of minimum separations, and a
    partition built for the recorded fold count. *)
Theorem run_keeps_caches_right
        (X0 Y0 : ndarray) (xl yl : pyval) (d : GPCData) (cs : list call) :
  wf X0 -> wf Y0 ->
  __init__ X0 Y0 xl yl = Ok d ->
  Forall (shuffle_ok (shape0 X0)) cs ->
  consistent (run cs d).
Proof.
  intros HX HY Hi Hcs.
  pose proof (init_consistent _ _ _ _ _ HX HY Hi) as Hc.
  assert (HN : getNum d = shape0 X0).
  { unfold __init__ in Hi.
    destruct (negb (shape1 Y0 =? 1)%nat); [discriminate|].
    destruct (negb (shape0 Y0 =? shape0 X0)%nat); [discriminate|].
    now injection Hi as <-. }
  rewrite <- HN in Hcs. now apply run_consistent.
Qed.

Lemma run_keeps_caches_right_witness :
  wf Example.X6 /\ wf Example.Y6 /\
  __init__ Example.X6 Example.Y6 PyNone PyNone = Ok Example.data6 /\
  Forall (shuffle_ok (shape0 Example.X6))
         [CallMinSeparation None; CallKFoldSplits Example.shuffled6 3;
          CallInputRange (Some [7]); CallKFoldSplits Example.shuffled6 0] /\
  consistent (run [CallMinSeparation None; CallKFoldSplits Example.shuffled6 3;
                   CallInputRange (Some [7]); CallKFoldSplits Example.shuffled6 0]
                  Example.data6).
Proof.
  assert (H1 : wf Example.X6) by (split; repeat constructor).
  assert (H2 : wf Example.Y6) by (split; repeat constructor).
  assert (H3 : Forall (shuffle_ok (shape0 Example.X6))
                 [CallMinSeparation None; CallKFoldSplits Example.shuffled6 3;
                  CallInputRange (Some [7]); CallKFoldSplits Example.shuffled6 0]).
  { repeat constructor; simpl;
      exact (Permutation_sym (Permutation_rev (seq 0 6))). }
  split; [exact H1|]. split; [exact H2|]. split; [reflexivity|].
  split; [exact H3|].
  exact (run_keeps_caches_right Example.X6 Example.Y6 PyNone PyNone
           Example.data6 _ H1 H2 eq_refl H3).
Defined.

Lemma getClass_fst_X (y : Z) (s1 s2 : GPCData) :
  X s1 = X s2 -> Y s1 = Y s2 -> fst (getClass y s1) = fst (getClass y s2).
Proof. intros H1 H2. unfold getClass. simpl. now rewrite H1, H2. Qed.

(** X5: what the statistics, the bounds and the class filter return does
    not depend on which methods were called before, in which order and
    with which arguments, nor on whether those calls failed. *)
Theorem statistics_ignore_history
        (cs : list call) (self : GPCData) (dims : option (list Z)) (y : Z) :
  consistent self ->
  Forall (shuffle_ok (getNum self)) cs ->
  fst (inputRange dims (run cs self)) = fst (inputRange dims self) /\
  fst (minSeparation dims (run cs self)) = fst (minSeparation dims self) /\
  fst (getLengthscaleBounds dims (run cs self))
  = fst (getLengthscaleBounds dims self) /\
  fst (getPeriodBounds dims (run cs self))
  = fst (getPeriodBounds dims self) /\
  fst (getClass y (run cs self)) = fst (getClass y self).
Proof.
  intros Hc Hcs.
  pose proof (run_consistent cs self Hc Hcs) as Hc'.
  destruct (run_X cs self) as [HX HY].
  pose proof (dims_or_all_X dims _ _ HX) as Hd.
  assert (H1 : fst (inputRange dims (run cs self))
               = fst (inputRange dims self))
    by (rewrite !inputRange_fst by assumption; now rewrite HX, Hd).
  assert (H2 : fst (minSeparation dims (run cs self))
               = fst (minSeparation dims self))
    by (rewrite !minSeparation_fst by assumption; now rewrite HX, Hd).
  assert (H3 : fst (getLengthscaleBounds dims (run cs self))
               = fst (getLengthscaleBounds dims self))
    by (rewrite !getLengthscaleBounds_fst by assumption;
        now rewrite H1, H2, HX).
  split; [exact H1|]. split; [exact H2|]. split; [exact H3|].
  split; [exact H3|]. now apply getClass_fst_X.
Qed.

Lemma statistics_ignore_history_witness :
  consistent Example.data6 /\
  Forall (shuffle_ok (getNum Example.data6))
         [CallKFoldSplits Example.shuffled6 2; CallMinSeparation (Some [3])] /\
  fst (inputRange None
         (run [CallKFoldSplits Example.shuffled6 2;
               CallMinSeparation (Some [3])] Example.data6))
  = fst (inputRange None Example.data6).
Proof.
  assert (H : Forall (shuffle_ok (getNum Example.data6))
                [CallKFoldSplits Example.shuffled6 2;
                 CallMinSeparation (Some [3])]).
  { repeat constructor; simpl;
      exact (Permutation_sym (Permutation_rev (seq 0 6))). }
  split; [exact data6_consistent|]. split; [exact H|].
  exact (proj1 (statistics_ignore_history _ Example.data6 None 0
                  data6_consistent H)).
Defined.

Lemma take_out_of_range (v : list Z) (dims : list Z) (i : Z) :
  In i dims -> i < - Z.of_nat (length v) \/ Z.of_nat (length v) <= i ->
  take v dims = Raise IndexError.
Proof.
  intros Hin Hi.
  destruct (mapM_Raise_intro
              (fun i => bind (norm_index (length v) i)
                             (fun n => Ok (nth n v 0)))
              dims i IndexError Hin) as [e He].
  - unfold norm_index.
    replace ((0 <=? i) && (i <? Z.of_nat (length v))) with false.
    + replace ((- Z.of_nat (length v) <=? i) && (i <? 0)) with false;
        [reflexivity|].
      symmetry. apply andb_false_iff.
      destruct Hi; [left; apply Z.leb_gt | right; apply Z.ltb_ge]; lia.
    + symmetry. apply andb_false_iff.
      destruct Hi; [left; apply Z.leb_gt | right; apply Z.ltb_ge]; lia.
  - unfold take. rewrite He. f_equal. exact (take_Raise v dims e He).
Qed.

(** X6: asking for a dimension that does not exist (an index outside
    [-D, D)) raises [IndexError], but the statistic has been computed and
    cached by then: on a dataset with at least one row the failed
    [inputRange] leaves the full range row in the cache, and where no
    dimension is degenerate the failed [minSeparation] leaves the full row
    of minimum separations. *)
Theorem failed_slice_still_fills_cache
        (self : GPCData) (dims : list Z) (i : Z) :
  consistent self ->
  (1 <= getNum self)%nat ->
  In i dims ->
  i < - Z.of_nat (getDim self) \/ Z.of_nat (getDim self) <= i ->
  fst (inputRange (Some dims) self) = Raise IndexError /\
  (exists v, xranges (snd (inputRange (Some dims) self)) = Some v /\
             length v = getDim self) /\
  ((forall d, ~ degenerate (X self) d) ->
   fst (minSeparation (Some dims) self) = Raise IndexError /\
   exists v, minseps (snd (minSeparation (Some dims) self)) = Some v /\
             length v = getDim self).
Proof.
  intros Hc HN Hin Hi.
  destruct (compute_xranges_spec (X self)) as [v [Hv [Hlv _]]];
    [apply Hc | exact HN |].
  split; [|split].
  - rewrite (inputRange_fst _ _ Hc), Hv. simpl.
    apply take_out_of_range with (i := i); [exact Hin|].
    rewrite Hlv. exact Hi.
  - exists v. split; [now apply inputRange_snd | exact Hlv].
  - intros Hnd. destruct (compute_minseps_total _ Hnd) as [w Hw].
    pose proof (compute_minseps_length _ _ Hw) as Hlw. split.
    + rewrite (minSeparation_fst _ _ Hc), Hw. simpl.
      apply take_out_of_range with (i := i); [exact Hin|].
      rewrite Hlw. exact Hi.
    + exists w. split; [now apply minSeparation_snd | exact Hlw].
Qed.

Lemma failed_slice_still_fills_cache_witness :
  consistent Example.data6 /\
  (1 <= getNum Example.data6)%nat /\
  In 1 [0; 1] /\
  (1 < - Z.of_nat (getDim Example.data6) \/
   Z.of_nat (getDim Example.data6) <= 1) /\
  fst (inputRange (Some [0; 1]) Example.data6) = Raise IndexError /\
  exists v, xranges (snd (inputRange (Some [0; 1]) Example.data6)) = Some v /\
            length v = getDim Example.data6.
Proof.
  assert (H1 : (1 <= getNum Example.data6)%nat)
    by (unfold getNum; simpl; lia).
  assert (H2 : In 1 [0; 1]) by (simpl; auto).
  assert (H3 : 1 < - Z.of_nat (getDim Example.data6) \/
               Z.of_nat (getDim Example.data6) <= 1)
    by (right; unfold getDim; simpl; lia).
  split; [exact data6_consistent|]. split; [exact H1|].
  split; [exact H2|]. split; [exact H3|].
  destruct (failed_slice_still_fills_cache Example.data6 [0; 1] 1
              data6_consistent H1 H2 H3) as [A [B _]].
  split; [exact A | exact B].
Defined.

(** ** What the statistics measure *)











(** X10: two datasets with input arrays of the same dtype and number of
    dimensions whose input rows are a permutation of each other, or are
    the same rows up to repetitions, get the same outcome from
    [inputRange] for every request. *)
Theorem inputRange_row_invariant
        (self1 self2 : GPCData) (dims : option (list Z)) :
  consistent self1 -> consistent self2 ->
  (1 <= getNum self1)%nat ->
  dtype (X self1) = dtype (X self2) ->
  shape1 (X self1) = shape1 (X self2) ->
  Permutation (rows (X self1)) (rows (X self2)) \/
  (forall r, In r (rows (X self1)) <-> In r (rows (X self2))) ->
  fst (inputRange dims self1) = fst (inputRange dims self2).
Proof.
  intros Hc1 Hc2 HN1 Ht Hs H.
  assert (Hr : forall r, In r (rows (X self1)) <-> In r (rows (X self2))).
  { destruct H as [Hp|Hr]; [|exact Hr]. intros r. split.
    - apply Permutation_in. exact Hp.
    - apply Permutation_in. symmetry. exact Hp. }
  assert (HN2 : (1 <= getNum self2)%nat).
  { destruct Hc1 as [[[Hl1 _] _] _]. destruct Hc2 as [[[Hl2 _] _] _].
    unfold getNum in *. rewrite <- Hl2.
    destruct (rows (X self1)) as [|r rs] eqn:E; [simpl in Hl1; lia|].
    destruct (rows (X self2)) as [|r' rs']; [|simpl; lia].
    destruct (proj1 (Hr r) (or_introl eq_refl)). }
  destruct (compute_xranges_spec (X self1)) as [v1 [Hv1 [Hl1 Hd1]]];
    [apply Hc1 | exact HN1 |].
  destruct (compute_xranges_spec (X self2)) as [v2 [Hv2 [Hl2 Hd2]]];
    [apply Hc2 | exact HN2 |].
  assert (E : v1 = v2).
  { apply nth_ext with (d := 0) (d' := 0); [congruence|].
    intros d Hd. rewrite Hl1 in Hd.
    destruct (direct_range_spec _ _ _ (Hd1 d Hd))
      as [mx1 [mn1 [Hmx1 [Hmn1 [Hb1 ->]]]]].
    assert (Hd' : (d < shape1 (X self2))%nat) by congruence.
    destruct (direct_range_spec _ _ _ (Hd2 d Hd'))
      as [mx2 [mn2 [Hmx2 [Hmn2 [Hb2 ->]]]]].
    rewrite Forall_forall in Hb1, Hb2.
    pose proof (column_rows_ext _ _ d Hr) as Hcol.
    pose proof (Hb2 _ (proj1 (Hcol _) Hmx1)).
    pose proof (Hb2 _ (proj1 (Hcol _) Hmn1)).
    pose proof (Hb1 _ (proj2 (Hcol _) Hmx2)).
    pose proof (Hb1 _ (proj2 (Hcol _) Hmn2)).
    rewrite Ht. f_equal. lia. }
  rewrite (inputRange_fst dims self1 Hc1), (inputRange_fst dims self2 Hc2).
  rewrite Hv1, Hv2, E. simpl. f_equal.
  destruct dims; [reflexivity|]. simpl. unfold getDim. now rewrite Hs.
Qed.

Lemma inputRange_row_invariant_witness :
  consistent Example.data6 /\ consistent Example.data7 /\
  (1 <= getNum Example.data6)%nat /\
  dtype (X Example.data6) = dtype (X Example.data7) /\
  shape1 (X Example.data6) = shape1 (X Example.data7) /\
  (forall r, In r (rows (X Example.data6)) <-> In r (rows (X Example.data7))) /\
  fst (inputRange None Example.data6) = fst (inputRange None Example.data7).
Proof.
  assert (Hr : forall r, In r (rows (X Example.data6))
                         <-> In r (rows (X Example.data7)))
    by (intros r; simpl; tauto).
  assert (H1 : (1 <= getNum Example.data6)%nat)
    by (unfold getNum; simpl; lia).
  split; [exact data6_consistent|]. split; [exact data7_consistent|].
  split; [exact H1|]. split; [reflexivity|]. split; [reflexivity|].
  split; [exact Hr|].
  exact (inputRange_row_invariant Example.data6 Example.data7 None
           data6_consistent data7_consistent H1 eq_refl eq_refl
           (or_intror Hr)).
Defined.

(** ** Selecting the points of a class *)

Section MaskSelect.

Variable y : Z.

Lemma mask_select_length (ls : list Z) (rs : list (list Z)) :
  length ls = length rs ->
  length (map snd (filter fst (combine (map (fun v => v =? y) ls) rs)))
  = count_occ Z.eq_dec ls y.
Proof.
  revert rs; induction ls as [|v ls IH]; intros [|r rs] Hl;
    simpl in *; try reflexivity; try discriminate.
  destruct (Z.eq_dec v y) as [->|Hne].
  - rewrite Z.eqb_refl. simpl. f_equal. apply IH. lia.
  - rewrite (proj2 (Z.eqb_neq _ _) Hne). simpl. apply IH. lia.
Qed.

Lemma mask_select_In (mask : list bool) (rs : list (list Z)) (r : list Z) :
  In r (map snd (filter fst (combine mask rs))) -> In r rs.
Proof.
  intros H. apply in_map_iff in H as [[b r'] [E H]]. simpl in E; subst r'.
  apply filter_In in H as [H _]. eapply in_combine_r; eassumption.
Qed.

End MaskSelect.

Lemma mask_select_binary (y0 y1 : Z) (ls : list Z) (rs : list (list Z)) :
  y0 <> y1 -> length ls = length rs ->
  Forall (fun v => v = y0 \/ v = y1) ls ->
  Permutation
    (map snd (filter fst (combine (map (fun v => v =? y0) ls) rs)) ++
     map snd (filter fst (combine (map (fun v => v =? y1) ls) rs)))
    rs.
Proof.
  intros Hne. revert rs; induction ls as [|v ls IH]; intros [|r rs] Hl Hall;
    simpl in *; try constructor; try discriminate.
  inversion Hall as [|? ? Hv Hall']; subst.
  assert (IH' := IH rs ltac:(lia) Hall').
  destruct Hv as [-> | ->].
  - rewrite Z.eqb_refl, (proj2 (Z.eqb_neq _ _) Hne). simpl.
    now constructor.
  - rewrite Z.eqb_refl.
    rewrite (proj2 (Z.eqb_neq y1 y0)) by congruence. simpl.
    apply Permutation_sym, Permutation_cons_app, Permutation_sym. exact IH'.
Qed.

Lemma getClass_valid (y : Z) (self : GPCData) :
  valid_dataset self ->
  getClass y self
  = (Ok (let sel := map snd (filter fst
                      (combine (map (fun v => v =? y) (column (Y self) 0))
                               (rows (X self)))) in
         {| dtype := dtype (X self); shape0 := length sel;
            shape1 := shape1 (X self); rows := sel |}),
     self).
Proof.
  intros [[HX _] [[HY _] [H1 H0]]]. unfold getClass, column0, take_mask.
  rewrite H1. simpl.
  assert (Hl : length (map (fun v => v =? y) (column (Y self) 0))
               = shape0 (X self))
    by (unfold column; rewrite !length_map; congruence).
  rewrite (proj2 (Nat.eqb_eq _ _) Hl). reflexivity.
Qed.

(** X11: on a constructed dataset [getClass(y)] never fails and leaves the
    instance as it is.  It returns an array of D columns with as many
    rows as [y] occurs among the labels, every one a row of [X]; for a
    label that does not occur the result is the empty 0 x D array of the
    dtype of [X]. *)
Theorem getClass_counts (y : Z) (self : GPCData) :
  valid_dataset self ->
  exists c,
    getClass y self = (Ok c, self) /\
    wf c /\ shape1 c = getDim self /\
    shape0 c = count_occ Z.eq_dec (column (Y self) 0) y /\
    (forall r, In r (rows c) -> In r (rows (X self))) /\
    (~ In y (column (Y self) 0) ->
     c = mk_ndarray (dtype (X self)) 0 (getDim self) []).
Proof.
  intros Hv. rewrite (getClass_valid y self Hv).
  destruct Hv as [[HX HXr] [[HY _] [H1 H0]]].
  set (sel := map snd (filter fst
                (combine (map (fun v => v =? y) (column (Y self) 0))
                         (rows (X self))))).
  assert (Hlen : length sel = count_occ Z.eq_dec (column (Y self) 0) y).
  { apply mask_select_length. unfold column. rewrite length_map. congruence. }
  assert (Hin : forall r, In r sel -> In r (rows (X self)))
    by (intros r; apply mask_select_In).
  eexists; split; [reflexivity|]. simpl.
  split; [|split; [reflexivity|split; [exact Hlen|split; [exact Hin|]]]].
  - split; simpl; [reflexivity|].
    apply Forall_forall. intros r Hr. rewrite Forall_forall in HXr.
    apply HXr, Hin, Hr.
  - intros Hno. apply (count_occ_not_In Z.eq_dec) in Hno.
    rewrite Hno in Hlen. apply length_zero_iff_nil in Hlen.
    unfold getDim. now rewrite Hlen.
Qed.

Lemma getClass_counts_witness :
  valid_dataset Example.data6 /\
  exists c,
    getClass 2 Example.data6 = (Ok c, Example.data6) /\
    shape0 c = count_occ Z.eq_dec (column (Y Example.data6) 0) 2 /\
    c = mk_ndarray (dtype (X Example.data6)) 0 (getDim Example.data6) [].
Proof.
  split; [exact (proj1 data6_consistent)|].
  destruct (getClass_counts 2 Example.data6 (proj1 data6_consistent))
    as [c [E [_ [_ [Hn [_ Hempty]]]]]].
  exists c. split; [exact E|]. split; [exact Hn|].
  apply Hempty. simpl. intros H.
  repeat (destruct H as [H|H]; [discriminate|]). exact H.
Defined.

(** X12: when every label is one of two values, the points of the two
    classes together are exactly the points of the dataset: the rows
    returned for one label followed by the rows returned for the other
    are a rearrangement of the rows of [X], and the two row counts add up
    to [getNum]. *)
Theorem getClass_two_classes (y0 y1 : Z) (self : GPCData) :
  valid_dataset self ->
  y0 <> y1 ->
  Forall (fun v => v = y0 \/ v = y1) (column (Y self) 0) ->
  exists c0 c1,
    fst (getClass y0 self) = Ok c0 /\
    fst (getClass y1 self) = Ok c1 /\
    Permutation (rows c0 ++ rows c1) (rows (X self)) /\
    (shape0 c0 + shape0 c1)%nat = getNum self.
Proof.
  intros Hv Hne Hall.
  rewrite (getClass_valid y0 self Hv), (getClass_valid y1 self Hv).
  destruct Hv as [[HX _] [[HY _] [H1 H0]]].
  assert (Hl : length (column (Y self) 0) = length (rows (X self)))
    by (unfold column; rewrite length_map; congruence).
  pose proof (mask_select_binary y0 y1 _ _ Hne Hl Hall) as Hp.
  eexists; eexists. split; [reflexivity|]. split; [reflexivity|]. simpl.
  split; [exact Hp|].
  apply Permutation_length in Hp. rewrite length_app in Hp.
  unfold getNum. congruence.
Qed.

Lemma getClass_two_classes_witness :
  valid_dataset Example.data6 /\
  0 <> 1 /\
  Forall (fun v => v = 0 \/ v = 1) (column (Y Example.data6) 0) /\
  exists c0 c1,
    fst (getClass 0 Example.data6) = Ok c0 /\
    fst (getClass 1 Example.data6) = Ok c1 /\
    Permutation (rows c0 ++ rows c1) (rows (X Example.data6)) /\
    (shape0 c0 + shape0 c1)%nat = getNum Example.data6.
Proof.
  assert (H1 : 0 <> 1) by lia.
  assert (H2 : Forall (fun v => v = 0 \/ v = 1) (column (Y Example.data6) 0))
    by (simpl; repeat constructor; auto).
  split; [exact (proj1 data6_consistent)|]. split; [exact H1|].
  split; [exact H2|].
  exact (getClass_two_classes 0 1 Example.data6 (proj1 data6_consistent)
           H1 H2).
Defined.

(** ** The data in the folds *)

Lemma NoDup_concat_In (ls : list (list nat)) (l : list nat) :
  NoDup (concat ls) -> In l ls -> NoDup l.
Proof.
  induction ls as [|l' ls IH]; intros Hnd Hin; [contradiction|].
  simpl in Hnd. destruct Hin as [->|Hin].
  - eapply NoDup_app_remove_r; eassumption.
  - apply IH; [eapply NoDup_app_remove_l; eassumption | assumption].
Qed.

Lemma filter_negb_app_Permutation (p : nat -> bool) (l : list nat) :
  Permutation (filter (fun a => negb (p a)) l ++ filter p l) l.
Proof.
  induction l as [|a l IH]; simpl; [constructor|].
  destruct (p a); simpl.
  - apply Permutation_sym, Permutation_cons_app, Permutation_sym. exact IH.
  - now constructor.
Qed.

(** The train indices followed by the test indices of a fold are all the
    row indices. *)
Lemma complement_Permutation (n : nat) (te : list nat) :
  NoDup te -> (forall x, In x te -> (x < n)%nat) ->
  Permutation (filter (fun a => negb (mem a te)) (seq 0 n) ++ te) (seq 0 n).
Proof.
  intros Hnd Hlt.
  etransitivity; [|apply (filter_negb_app_Permutation (fun a => mem a te))].
  apply Permutation_app_head, Permutation_sym.
  now apply filter_mem_Permutation.
Qed.

Lemma labelled_take_rows (x y : ndarray) (ind : list nat) :
  labelled (take_rows x ind) (take_rows y ind)
  = map (fun i => (nth i (rows x) [], nth i (rows y) [])) ind.
Proof.
  unfold labelled, take_rows. simpl.
  induction ind as [|i ind IH]; simpl; [reflexivity|]. now rewrite IH.
Qed.

Lemma labelled_all_rows (rx ry : list (list Z)) :
  length rx = length ry ->
  map (fun i => (nth i rx [], nth i ry [])) (seq 0 (length rx))
  = combine rx ry.
Proof.
  revert ry; induction rx as [|a rx IH]; intros [|b ry] Hl;
    simpl in *; try reflexivity; try discriminate.
  f_equal. rewrite <- seq_shift, map_map. apply IH. lia.
Qed.

Lemma kfold_partition_test_block
      (n : nat) (k : Z) (folds : list (list nat * list nat))
      (f : list nat * list nat) :
  kfold_partition n k folds -> In f folds ->
  NoDup (snd f) /\ (forall x, In x (snd f) -> (x < n)%nat) /\
  fst f = filter (fun a => negb (mem a (snd f))) (seq 0 n).
Proof.
  intros [_ [Hp [_ Hall]]] Hin.
  assert (Hnd : NoDup (concat (map snd folds)))
    by (eapply Permutation_NoDup; [symmetry; exact Hp | apply seq_NoDup]).
  split; [|split].
  - apply (NoDup_concat_In _ _ Hnd). now apply in_map.
  - intros x Hx.
    assert (Hc : In x (concat (map snd folds))).
    { apply in_concat. exists (snd f). split; [now apply in_map | exact Hx]. }
    apply (Permutation_in _ Hp), in_seq in Hc. lia.
  - rewrite Forall_forall in Hall. now apply Hall.
Qed.

(** X13: for [1 < k <= N], in every fold returned by [kFoldSplits] the
    training points and the test points, each taken with its class label,
    are together exactly the labelled points of the dataset: no point is
    lost, repeated or separated from its label, and the training and
    label arrays of a fold have the same number of rows.  (The index
    folds are those of the model of scikit-learn's [KFold].) *)
Theorem kFoldSplits_folds_keep_dataset
        (self : GPCData) (idxs : list nat) (k : Z) :
  consistent self ->
  1 < k <= Z.of_nat (getNum self) ->
  Permutation idxs (seq 0 (getNum self)) ->
  exists folds,
    fst (kFoldSplits idxs k self) = Ok (splits_of self folds) /\
    Z.of_nat (length folds) = k /\
    Forall (fun f =>
              Permutation
                (labelled (take_rows (X self) (fst f))
                          (take_rows (Y self) (fst f)) ++
                 labelled (take_rows (X self) (snd f))
                          (take_rows (Y self) (snd f)))
                (labelled (X self) (Y self)) /\
              shape0 (take_rows (X self) (fst f))
              = shape0 (take_rows (Y self) (fst f)) /\
              shape0 (take_rows (X self) (snd f))
              = shape0 (take_rows (Y self) (snd f)) /\
              (shape0 (take_rows (X self) (fst f)) +
               shape0 (take_rows (X self) (snd f)))%nat = getNum self)
           folds.
Proof.
  intros Hc Hk Hp.
  destruct (kFoldSplits_valid idxs k self Hc ltac:(lia) Hp)
    as [s [self1 [E [Hv _]]]].
  unfold valid_splits in Hv.
  replace (k =? 1) with false in Hv by (symmetry; apply Z.eqb_neq; lia).
  destruct Hv as [folds [Hf ->]].
  exists folds. rewrite E. split; [reflexivity|].
  split; [apply Hf|].
  apply Forall_forall. intros f Hin.
  destruct (kfold_partition_test_block _ _ _ _ Hf Hin) as [Hnd [Hlt Hfst]].
  pose proof (complement_Permutation _ _ Hnd Hlt) as Hall.
  rewrite <- Hfst in Hall.
  destruct Hc as [[[HX _] [[HY _] [_ H0]]] _].
  split; [|split; [reflexivity|split; [reflexivity|]]].
  - rewrite !labelled_take_rows, <- map_app.
    unfold labelled. rewrite <- labelled_all_rows by congruence.
    rewrite HX. now apply Permutation_map.
  - simpl. apply Permutation_length in Hall.
    rewrite length_app, length_seq in Hall. exact Hall.
Qed.

Lemma kFoldSplits_folds_keep_dataset_witness :
  consistent Example.data6 /\
  1 < 4 <= Z.of_nat (getNum Example.data6) /\
  Permutation Example.shuffled6 (seq 0 (getNum Example.data6)) /\
  exists folds,
    fst (kFoldSplits Example.shuffled6 4 Example.data6)
    = Ok (splits_of Example.data6 folds) /\
    Z.of_nat (length folds) = 4.
Proof.
  assert (H1 : 1 < 4 <= Z.of_nat (getNum Example.data6))
    by (unfold getNum; simpl; lia).
  split; [exact data6_consistent|]. split; [exact H1|].
  split; [exact shuffled6_Permutation|].
  destruct (kFoldSplits_folds_keep_dataset Example.data6 Example.shuffled6 4
              data6_consistent H1 shuffled6_Permutation)
    as [folds [E [Hl _]]].
  exists folds. split; [exact E | exact Hl].
Defined.

Lemma length_nth_blocks (sizes : list nat) (l : list nat) (i : nat) :
  (list_sum sizes <= length l)%nat -> (i < length sizes)%nat ->
  length (nth i (blocks l sizes) []) = nth i sizes 0%nat.
Proof.
  revert l i; induction sizes as [|s ss IH]; intros l i Hsum Hi;
    simpl in *; [lia|].
  destruct i as [|i].
  - apply firstn_length_le. lia.
  - apply IH; [rewrite length_skipn; lia | lia].
Qed.

Lemma nth_fold_sizes (n k i : nat) :
  (i < k)%nat ->
  nth i (fold_sizes n k) 0%nat
  = (n / k + (if (i <? n mod k)%nat then 1 else 0))%nat.
Proof.
  intros Hi. unfold fold_sizes.
  rewrite (nth_map_lt _ _ _ _ 0%nat) by (now rewrite length_seq).
  now rewrite seq_nth.
Qed.

Lemma compute_splits_blocks (idxs : list nat) (k : Z) (self : GPCData) :
  1 < k <= Z.of_nat (getNum self) ->
  compute_splits idxs k self
  = Ok (splits_of self
          (map (fun blk =>
                  (filter (fun i => negb (mem i blk)) (seq 0 (getNum self)),
                   filter (fun i => mem i blk) (seq 0 (getNum self))))
               (blocks idxs (fold_sizes (getNum self) (Z.to_nat k))))).
Proof.
  intros Hk. unfold compute_splits, KFold.
  replace (k =? 1) with false by (symmetry; apply Z.eqb_neq; lia).
  replace (k <=? 1) with false by (symmetry; apply Z.leb_gt; lia).
  replace (k >? Z.of_nat (getNum self)) with false
    by (symmetry; rewrite Z.gtb_ltb; apply Z.ltb_ge; lia).
  reflexivity.
Qed.

(** The result of a call in range is what [compute_splits] builds from
    some shuffle of the row indices: the one of this call or the one of
    the call that filled the cache. *)
Lemma kFoldSplits_computed (idxs : list nat) (k : Z) (self : GPCData) :
  consistent self ->
  1 <= k <= Z.of_nat (getNum self) ->
  Permutation idxs (seq 0 (getNum self)) ->
  exists idxs0,
    Permutation idxs0 (seq 0 (getNum self)) /\
    fst (kFoldSplits idxs k self) = compute_splits idxs0 k self.
Proof.
  intros [_ [_ [_ Hc]]] Hk Hp.
  destruct (kFoldSplits_Ok idxs k self Hk) as [s [[E [Hs Hn]]|[E Hs]]];
    rewrite E; simpl.
  - destruct (Hc s k Hs Hn) as [idxs0 [Hp0 H0]].
    exists idxs0. split; [exact Hp0 | now symmetry].
  - exists idxs. split; [exact Hp | now symmetry].
Qed.

(** X14: for [1 < k <= N] the folds are balanced and none is empty: test
    fold [i] has [N // k] rows, one more for the first [N % k] folds, in
    its input and in its label array, and the training arrays of fold [i]
    have the remaining [N] minus that many rows.  (The block sizes are
    those of the model of scikit-learn's [KFold].) *)
Theorem kFoldSplits_balanced (self : GPCData) (idxs : list nat) (k : Z) :
  consistent self ->
  1 < k <= Z.of_nat (getNum self) ->
  Permutation idxs (seq 0 (getNum self)) ->
  exists Xs Ys XTs YTs,
    fst (kFoldSplits idxs k self) = Ok (Xs, Ys, XTs, YTs) /\
    length Xs = Z.to_nat k /\ length Ys = Z.to_nat k /\
    length XTs = Z.to_nat k /\ length YTs = Z.to_nat k /\
    forall i, (i < Z.to_nat k)%nat ->
      let size := (getNum self / Z.to_nat k +
                   (if (i <? getNum self mod Z.to_nat k)%nat then 1 else 0))%nat
      in
      (1 <= size)%nat /\
      shape0 (nth i XTs (mk_ndarray int64 0 0 [])) = size /\
      shape0 (nth i YTs (mk_ndarray int64 0 0 [])) = size /\
      shape0 (nth i Xs (mk_ndarray int64 0 0 [])) = (getNum self - size)%nat /\
      shape0 (nth i Ys (mk_ndarray int64 0 0 [])) = (getNum self - size)%nat.
Proof.
  intros Hc Hk Hp.
  destruct (kFoldSplits_computed idxs k self Hc ltac:(lia) Hp)
    as [idxs0 [Hp0 E]].
  rewrite (compute_splits_blocks idxs0 k self Hk) in E.
  set (n := getNum self) in *. set (kn := Z.to_nat k) in *.
  set (bs := blocks idxs0 (fold_sizes n kn)) in *.
  assert (Hkn : (0 < kn <= n)%nat) by (unfold kn; lia).
  assert (Hlen0 : length idxs0 = n)
    by (rewrite (Permutation_length Hp0); apply length_seq).
  assert (Hbs : length bs = kn)
    by (unfold bs; now rewrite length_blocks, length_fold_sizes).
  assert (Hcat : concat bs = idxs0).
  { unfold bs. rewrite concat_blocks, list_sum_fold_sizes by lia.
    rewrite <- Hlen0 at 1. apply firstn_all. }
  unfold splits_of in E.
  eexists; eexists; eexists; eexists. split; [exact E|].
  rewrite !length_map.
  split; [exact Hbs|]. split; [exact Hbs|].
  split; [exact Hbs|]. split; [exact Hbs|].
  intros i Hi size.
  assert (Hblk : length (nth i bs []) = size).
  { unfold bs. rewrite length_nth_blocks.
    - now apply nth_fold_sizes.
    - rewrite list_sum_fold_sizes by lia. lia.
    - now rewrite length_fold_sizes. }
  assert (Hin : In (nth i bs []) bs) by (apply nth_In; lia).
  assert (Hnd : NoDup (nth i bs [])).
  { apply (NoDup_concat_In bs); [|exact Hin].
    rewrite Hcat. eapply Permutation_NoDup;
      [symmetry; exact Hp0 | apply seq_NoDup]. }
  assert (Hlt : forall x, In x (nth i bs []) -> (x < n)%nat).
  { intros x Hx.
    assert (Hx' : In x (concat bs))
      by (apply in_concat; exists (nth i bs []); auto).
    rewrite Hcat in Hx'. apply (Permutation_in _ Hp0), in_seq in Hx'. lia. }
  assert (Hte : length (filter (fun a => mem a (nth i bs [])) (seq 0 n)) = size).
  { rewrite <- Hblk. apply Permutation_length.
    now apply filter_mem_Permutation. }
  assert (Htr : length (filter (fun a => negb (mem a (nth i bs []))) (seq 0 n))
                = (n - size)%nat).
  { pose proof (Permutation_length
                  (filter_negb_app_Permutation
                     (fun a => mem a (nth i bs [])) (seq 0 n))) as H.
    rewrite length_app, length_seq in H. lia. }
  assert (Hsize : (1 <= size)%nat).
  { unfold size. pose proof (Nat.div_str_pos n kn Hkn). lia. }
  split; [exact Hsize|].
  rewrite !map_map.
  rewrite !(nth_map_lt _ bs i _ []) by lia. simpl.
  repeat split; assumption.
Qed.

Lemma kFoldSplits_balanced_witness :
  consistent Example.data6 /\
  1 < 4 <= Z.of_nat (getNum Example.data6) /\
  Permutation Example.shuffled6 (seq 0 (getNum Example.data6)) /\
  exists Xs Ys XTs YTs,
    fst (kFoldSplits Example.shuffled6 4 Example.data6)
    = Ok (Xs, Ys, XTs, YTs) /\
    length XTs = Z.to_nat 4 /\
    shape0 (nth 3 XTs (mk_ndarray int64 0 0 [])) = 1%nat /\
    shape0 (nth 3 Xs (mk_ndarray int64 0 0 [])) = 5%nat.
Proof.
  assert (H1 : 1 < 4 <= Z.of_nat (getNum Example.data6))
    by (unfold getNum; simpl; lia).
  split; [exact data6_consistent|]. split; [exact H1|].
  split; [exact shuffled6_Permutation|].
  destruct (kFoldSplits_balanced Example.data6 Example.shuffled6 4
              data6_consistent H1 shuffled6_Permutation)
    as [Xs [Ys [XTs [YTs [E [_ [_ [Hl [_ Hsz]]]]]]]]].
  destruct (Hsz 3%nat ltac:(simpl; lia)) as [_ [A [_ [B _]]]].
  exists Xs, Ys, XTs, YTs.
  split; [exact E|]. split; [exact Hl|]. split; [exact A | exact B].
Defined.

Lemma compute_splits_XY (idxs : list nat) (k : Z) (s1 s2 : GPCData) :
  X s1 = X s2 -> Y s1 = Y s2 ->
  compute_splits idxs k s1 = compute_splits idxs k s2.
Proof.
  intros HX HY. unfold compute_splits, getNum. now rewrite HX, HY.
Qed.

(** X15: the cache holds one partition only.  After [kFoldSplits(k)] and
    then [kFoldSplits(k')] with another fold count, asking for [k] again
    does not bring the first partition back: it is built anew from the
    shuffle of that third call, and the cache then records [k] again. *)
Theorem kFoldSplits_cache_holds_one
        (self : GPCData) (idxs1 idxs2 idxs3 : list nat) (k k' : Z) :
  consistent self ->
  1 <= k <= Z.of_nat (getNum self) ->
  1 <= k' <= Z.of_nat (getNum self) ->
  k' <> k ->
  Permutation idxs1 (seq 0 (getNum self)) ->
  Permutation idxs2 (seq 0 (getNum self)) ->
  Permutation idxs3 (seq 0 (getNum self)) ->
  let self2 := snd (kFoldSplits idxs2 k' (snd (kFoldSplits idxs1 k self))) in
  exists s3,
    compute_splits idxs3 k self = Ok s3 /\
    fst (kFoldSplits idxs3 k self2) = Ok s3 /\
    splits (snd (kFoldSplits idxs3 k self2)) = Some s3 /\
    nFolds (snd (kFoldSplits idxs3 k self2)) = Some k.
Proof.
  intros Hc Hk Hk' Hne Hp1 Hp2 Hp3 self2. subst self2.
  destruct (kFoldSplits_valid idxs1 k self Hc Hk Hp1)
    as [s [self1 [E [_ [Hs [Hn [HX HY]]]]]]].
  rewrite E. simpl.
  assert (HN : getNum self1 = getNum self) by (unfold getNum; now rewrite HX).
  destruct (kFoldSplits_other_k idxs2 k k' self1 s Hs Hn Hne)
    as [s2 [E2 _]]; [rewrite HN; assumption..|].
  rewrite E2. simpl.
  destruct (kFoldSplits_other_k idxs3 k' k (set_splits s2 k' self1) s2
              eq_refl eq_refl) as [s3 [E3 [C3 _]]].
  - congruence.
  - unfold getNum. simpl. fold (getNum self1). rewrite HN. exact Hk.
  - unfold getNum. simpl. fold (getNum self1). rewrite HN. exact Hp3.
  - exists s3. rewrite E3. simpl. split; [|auto].
    rewrite <- C3. apply compute_splits_XY; simpl; congruence.
Qed.

Lemma kFoldSplits_cache_holds_one_witness :
  consistent Example.data6 /\
  1 <= 3 <= Z.of_nat (getNum Example.data6) /\
  1 <= 2 <= Z.of_nat (getNum Example.data6) /\
  2 <> 3 /\
  Permutation Example.shuffled6 (seq 0 (getNum Example.data6)) /\
  Permutation (seq 0 6) (seq 0 (getNum Example.data6)) /\
  exists s3,
    compute_splits (seq 0 6) 3 Example.data6 = Ok s3 /\
    fst (kFoldSplits (seq 0 6) 3
           (snd (kFoldSplits Example.shuffled6 2
                   (snd (kFoldSplits Example.shuffled6 3 Example.data6)))))
    = Ok s3.
Proof.
  assert (H1 : 1 <= 3 <= Z.of_nat (getNum Example.data6))
    by (unfold getNum; simpl; lia).
  assert (H2 : 1 <= 2 <= Z.of_nat (getNum Example.data6))
    by (unfold getNum; simpl; lia).
  assert (H3 : 2 <> 3) by lia.
  assert (H4 : Permutation (seq 0 6) (seq 0 (getNum Example.data6)))
    by apply Permutation_refl.
  split; [exact data6_consistent|]. split; [exact H1|]. split; [exact H2|].
  split; [exact H3|]. split; [exact shuffled6_Permutation|].
  split; [exact H4|].
  destruct (kFoldSplits_cache_holds_one Example.data6 Example.shuffled6
              Example.shuffled6 (seq 0 6) 3 2 data6_consistent H1 H2 H3
              shuffled6_Permutation shuffled6_Permutation H4)
    as [s3 [A [B _]]].
  exists s3. split; [exact A | exact B].
Defined.

Lemma minSeparation_degenerate
      (dims : option (list Z)) (self : GPCData) (d : nat) :
  consistent self -> degenerate (X self) d ->
  minSeparation dims self = (Raise ValueError, self).
Proof.
  intros [_ [_ [Hm _]]] Hd.
  pose proof (compute_minseps_degenerate _ _ Hd) as Hr.
  unfold minSeparation. destruct (minseps self) as [v|] eqn:E.
  - specialize (Hm v eq_refl). congruence.
  - now rewrite Hr.
Qed.

(** X16: a single dimension with fewer than two distinct values makes the
    bounds unavailable for every request, also for the other dimensions:
    [getLengthscaleBounds] and [getPeriodBounds] raise the [ValueError] of
    [minSeparation] and return the instance untouched, the range not
    having been computed. *)
Theorem bounds_fail_on_degenerate
        (self : GPCData) (dims : option (list Z)) (d : nat) :
  consistent self ->
  degenerate (X self) d ->
  getLengthscaleBounds dims self = (Raise ValueError, self) /\
  getPeriodBounds dims self = (Raise ValueError, self).
Proof.
  intros Hc Hd.
  assert (E : getLengthscaleBounds dims self = (Raise ValueError, self)).
  { unfold getLengthscaleBounds, bindM.
    now rewrite (minSeparation_degenerate _ self d Hc Hd). }
  split; exact E.
Qed.

Lemma bounds_fail_on_degenerate_witness :
  consistent Example.dataflat /\
  degenerate (X Example.dataflat) 1 /\
  getLengthscaleBounds (Some [0]) Example.dataflat
  = (Raise ValueError, Example.dataflat) /\
  getPeriodBounds (Some [0]) Example.dataflat
  = (Raise ValueError, Example.dataflat).
Proof.
  assert (H0 : consistent Example.dataflat).
  { split.
    - repeat split; repeat constructor.
    - repeat split; simpl; discriminate. }
  assert (H1 : degenerate (X Example.dataflat) 1)
    by (split; [simpl; lia | vm_compute; lia]).
  split; [exact H0|]. split; [exact H1|].
  exact (bounds_fail_on_degenerate Example.dataflat (Some [0]) 1 H0 H1).
Defined.

Lemma distinct_count_le (col : list Z) :
  (distinct_count col <= length col)%nat.
Proof.
  unfold distinct_count. apply NoDup_incl_length; [apply NoDup_nodup|].
  intros x Hx. now apply nodup_In in Hx.
Qed.

(** X17: a dataset with fewer than two rows and at least one dimension
    has no minimum separation: [minSeparation] raises [ValueError] for
    every request, and so do the bounds. *)
Theorem minSeparation_needs_two_rows
        (self : GPCData) (dims : option (list Z)) :
  consistent self ->
  (getNum self < 2)%nat ->
  (1 <= getDim self)%nat ->
  minSeparation dims self = (Raise ValueError, self) /\
  getLengthscaleBounds dims self = (Raise ValueError, self).
Proof.
  intros Hc HN HD.
  assert (Hd : degenerate (X self) 0).
  { split; [exact HD|].
    pose proof (distinct_count_le (column (X self) 0)) as Hle.
    unfold column in Hle. rewrite length_map in Hle.
    destruct Hc as [[[Hl _] _] _]. unfold getNum in HN.
    unfold column. lia. }
  split; [now apply minSeparation_degenerate with (d := 0%nat)|].
  unfold getLengthscaleBounds, bindM.
  now rewrite (minSeparation_degenerate _ self 0 Hc Hd).
Qed.

Lemma minSeparation_needs_two_rows_witness :
  consistent (mk_GPCData (mk_ndarray int64 1 1 [[3]]) (mk_ndarray int64 1 1 [[1]])
                         [AStr "$x_{1}$"] default_YLabel
                         None None None None) /\
  minSeparation None
    (mk_GPCData (mk_ndarray int64 1 1 [[3]]) (mk_ndarray int64 1 1 [[1]])
                [AStr "$x_{1}$"] default_YLabel None None None None)
  = (Raise ValueError,
     mk_GPCData (mk_ndarray int64 1 1 [[3]]) (mk_ndarray int64 1 1 [[1]])
                [AStr "$x_{1}$"] default_YLabel None None None None).
Proof.
  assert (H0 : consistent
                 (mk_GPCData (mk_ndarray int64 1 1 [[3]]) (mk_ndarray int64 1 1 [[1]])
                             [AStr "$x_{1}$"] default_YLabel
                             None None None None)).
  { split.
    - repeat split; repeat constructor.
    - repeat split; simpl; discriminate. }
  split; [exact H0|].
  apply (minSeparation_needs_two_rows _ None H0).
  - unfold getNum; simpl; lia.
  - unfold getDim; simpl; lia.
Defined.
